(** * The agent control loop of [mainloop.py]: a shallow embedding

    The Python class [ClaudeCodeAgent] is embedded as explicit state
    passing: a computation receives the agent it runs on ([self]) and
    the world around it (todo directory, standard output, the calls made
    to the outside) and gives back an outcome together with the new
    agent and the new world.  Python exceptions are outcomes of their
    own, so that a raise inside a helper unwinds the callers the way it
    does in the source.  The helper methods that the class calls but
    never defines ([_call_api], [_get_model_response], ...) are the
    fields of an environment record the development is parametric in. *)

From stdpp Require Import base option list gmap strings sorting.
From Stdlib Require Import ZArith Lia.

(** ** Data model (lines 13-57 of the source) *)

Inductive ModelType := OPUS | SONNET | HAIKU.

Inductive ToolType :=
| BASH | READ | WRITE
| EDIT | GREP | GLOB | LS
| TASK | WEB_FETCH | TODO_WRITE | TODO_READ | EXIT_PLAN_MODE.

(** The [value] attribute of a [ToolType] member. *)
Definition ToolType_value (t : ToolType) : string :=
  match t with
  | BASH => "bash" | READ => "read" | WRITE => "write"
  | EDIT => "edit" | GREP => "grep" | GLOB => "glob" | LS => "ls"
  | TASK => "task" | WEB_FETCH => "web_fetch"
  | TODO_WRITE => "todo_write" | TODO_READ => "todo_read"
  | EXIT_PLAN_MODE => "exit_plan_mode"
  end.

Global Instance ModelType_eq_dec : EqDecision ModelType.
Proof. solve_decision. Defined.
Global Instance ToolType_eq_dec : EqDecision ToolType.
Proof. solve_decision. Defined.

(** The values stored in the result dictionaries of the tools: text, or
    a list (the executors only ever store the empty list). *)
#[warnings="-register-all"]
Inductive Value :=
| VStr (s : string)
| VList (l : list Value).

(** A tool call is a dictionary with the keys ['tool'] and ['params'].
    The source reads ['tool'] both as a string ([== 'Task'] in
    [main_loop]) and as a [ToolType] member ([.value] and
    [== ToolType.EDIT] in the helpers), so both kinds are kept. *)
Inductive ToolName :=
| ToolStr (s : string)
| ToolEnum (t : ToolType).

Record ToolCall := {
  tool : ToolName;
  params : gmap string string
}.

(** [content] is [None] where Python holds [None]: the text handed to a
    message by [_compact_context] comes from [_call_api] unchecked. *)
Record Message := {
  role : string;
  content : option string;
  tool_calls : option (list ToolCall);
  tool_results : option (list (gmap string Value))
}.

Record TodoItem := {
  id : nat;
  description : string;
  completed : bool
}.

Record Context := {
  messages : list Message;
  todo_list : list TodoItem;
  current_directory : string;
  claude_md_content : string;
  recent_commits : list string;
  platform_info : gmap string string
}.

Record ClaudeCodeAgent := {
  api_key : string;
  project_path : string;
  context : Context;
  current_model : ModelType;
  sub_agent_depth : nat;
  MAX_SUB_AGENT_DEPTH : nat;
  todos_path : string;
  is_ide_integrated : bool
}.

(** Functional updates of the fields the methods assign to. *)
Definition set_messages (ms : list Message) (c : Context) : Context :=
  {| messages := ms; todo_list := todo_list c;
     current_directory := current_directory c;
     claude_md_content := claude_md_content c;
     recent_commits := recent_commits c;
     platform_info := platform_info c |}.

Definition set_todo_list (ts : list TodoItem) (c : Context) : Context :=
  {| messages := messages c; todo_list := ts;
     current_directory := current_directory c;
     claude_md_content := claude_md_content c;
     recent_commits := recent_commits c;
     platform_info := platform_info c |}.

Definition set_context (c : Context) (a : ClaudeCodeAgent) : ClaudeCodeAgent :=
  {| api_key := api_key a; project_path := project_path a; context := c;
     current_model := current_model a;
     sub_agent_depth := sub_agent_depth a;
     MAX_SUB_AGENT_DEPTH := MAX_SUB_AGENT_DEPTH a;
     todos_path := todos_path a;
     is_ide_integrated := is_ide_integrated a |}.

Definition set_current_model (m : ModelType) (a : ClaudeCodeAgent)
  : ClaudeCodeAgent :=
  {| api_key := api_key a; project_path := project_path a;
     context := context a; current_model := m;
     sub_agent_depth := sub_agent_depth a;
     MAX_SUB_AGENT_DEPTH := MAX_SUB_AGENT_DEPTH a;
     todos_path := todos_path a;
     is_ide_integrated := is_ide_integrated a |}.

Definition set_sub_agent_depth (d : nat) (a : ClaudeCodeAgent)
  : ClaudeCodeAgent :=
  {| api_key := api_key a; project_path := project_path a;
     context := context a; current_model := current_model a;
     sub_agent_depth := d;
     MAX_SUB_AGENT_DEPTH := MAX_SUB_AGENT_DEPTH a;
     todos_path := todos_path a;
     is_ide_integrated := is_ide_integrated a |}.

(** ** The world outside the agent *)

(** One object of a persisted todo snapshot, as [json.load] returns it:
    either key may be absent. *)
Record JItem := {
  j_description : option string;
  j_completed : option bool
}.

(** The calls that leave the process. *)
Inductive Call :=
| CallApi (m : ModelType) (prompt : string)
| CallModelResponse
| CallUpdateTitle (user_input : string)
| CallSaveSummary (summary : option string).

(** [todos_dir] is the directory [~/.claude/todos/]: [None] while it
    does not exist, else the decoded content of each file by name. *)
Record World := {
  todos_dir : option (gmap string (list JItem));
  stdout : list string;
  calls : list Call
}.

Definition set_todos_dir (d : option (gmap string (list JItem))) (w : World)
  : World :=
  {| todos_dir := d; stdout := stdout w; calls := calls w |}.

Definition add_stdout (line : string) (w : World) : World :=
  {| todos_dir := todos_dir w; stdout := stdout w ++ [line];
     calls := calls w |}.

Definition add_call (c : Call) (w : World) : World :=
  {| todos_dir := todos_dir w; stdout := stdout w; calls := calls w ++ [c] |}.

(** Modelled from the spec: [_get_model_response] is not in the source,
    which only reads [tool_calls] off its result; the ModelClient
    interface of the specification gives the result its three fields.
    An absent and an empty [tool_calls] behave alike under the truth
    test of line 146, so a plain list stands for both. *)
Record Response := {
  resp_content : string;
  resp_tool_calls : list ToolCall;
  completion_signal : bool
}.

(** The methods and system services the class uses without defining
    them.  Each answer may depend on the world (which records every
    call made so far) and on the calling agent. *)
Record Env := {
  _call_api : World → ClaudeCodeAgent → ModelType → string → option string;
  _get_model_response : World → ClaudeCodeAgent → Response;
  _estimate_tokens : option string → Z;
  _build_system_reminder_start : ClaudeCodeAgent → string;
  _build_system_reminder_end : ClaudeCodeAgent → string;
  _extract_final_result : Context → string;
  now_strftime : World → string;
  claude_md_file : string → option string;
  platform : gmap string string;
  ide_in_environ : bool
}.

(** ** Outcomes and the monad of methods *)

Inductive Exn := TypeError | AttributeError | KeyError | FileNotFoundError.

Inductive Res (A : Type) :=
| Ok (a : A)
| Raise (e : Exn)
| OutOfFuel.
Arguments Ok {A} a.
Arguments Raise {A} e.
Arguments OutOfFuel {A}.

Definition M (A : Type) : Type :=
  ClaudeCodeAgent → World → Res A * ClaudeCodeAgent * World.

Definition ret {A} (a : A) : M A := λ self w, (Ok a, self, w).

Definition bind {A B} (m : M A) (k : A → M B) : M B :=
  λ self w,
    match m self w with
    | (Ok a, self', w') => k a self' w'
    | (Raise e, self', w') => (Raise e, self', w')
    | (OutOfFuel, self', w') => (OutOfFuel, self', w')
    end.

Definition raise {A} (e : Exn) : M A := λ self w, (Raise e, self, w).
Definition out_of_fuel {A} : M A := λ self w, (OutOfFuel, self, w).

Global Instance M_ret : MRet M := @ret.
Global Instance M_bind : MBind M := λ A B k m, bind m k.

Definition get_self : M ClaudeCodeAgent := λ self w, (Ok self, self, w).
Definition get_world : M World := λ self w, (Ok w, self, w).
Definition modify_self (f : ClaudeCodeAgent → ClaudeCodeAgent) : M unit :=
  λ self w, (Ok tt, f self, w).
Definition modify_world (f : World → World) : M unit :=
  λ self w, (Ok tt, self, f w).

Definition print (line : string) : M unit := modify_world (add_stdout line).

(** [self.context.messages.append(m)] *)
Definition messages_append (m : Message) : M unit :=
  modify_self (λ a, set_context (set_messages (messages (context a) ++ [m])
                                              (context a)) a).

(** An argument of a call is given or left out. *)
Inductive Arg (A : Type) := Given (a : A) | Omitted.
Arguments Given {A} a.
Arguments Omitted {A}.

(** The constructor the [dataclass] decorator generates for [Message]:
    [role] and [content] have no default, the other two default to
    [None]. *)
Definition Message_init (r : Arg string) (c : Arg (option string))
    (tc : Arg (option (list ToolCall)))
    (tr : Arg (option (list (gmap string Value)))) : M Message :=
  match r, c with
  | Given r, Given c =>
      ret {| role := r; content := c;
             tool_calls := match tc with Given x => x | Omitted => None end;
             tool_results := match tr with Given x => x | Omitted => None end |}
  | _, _ => raise TypeError
  end.

(** ** String operations of Python used by the source *)

(** [str.lower] on the ASCII letters. *)
Definition ascii_lower (c : Ascii.ascii) : Ascii.ascii :=
  let n := Ascii.N_of_ascii c in
  if ((65 <=? n) && (n <=? 90))%N then Ascii.ascii_of_N (n + 32) else c.

Fixpoint lower (s : string) : string :=
  match s with
  | EmptyString => EmptyString
  | String c s' => String (ascii_lower c) (lower s')
  end.

(** [needle in hay] for two strings. *)
Fixpoint str_in (needle hay : string) : bool :=
  String.prefix needle hay ||
  match hay with
  | EmptyString => false
  | String _ hay' => str_in needle hay'
  end.

(** [s.endswith(suffix)] *)
Definition endswith (s suffix : string) : bool :=
  String.prefix (String.rev suffix) (String.rev s).

(** [sorted] on a list of strings: ascending in the order of [str]. *)
Definition sorted (l : list string) : list string := merge_sort String.le l.

(** [tool_call['tool'] == s] for a string literal [s]: a member of the
    plain [Enum] never equals a string. *)
Definition tool_eq_str (t : ToolName) (s : string) : bool :=
  match t with
  | ToolStr s' => bool_decide (s' = s)
  | ToolEnum _ => false
  end.

(** [tool == m] for a member [m] of [ToolType]. *)
Definition tool_eq_enum (t : ToolName) (m : ToolType) : bool :=
  match t with
  | ToolStr _ => false
  | ToolEnum m' => bool_decide (m' = m)
  end.

(** [tool.value]: a string has no such attribute. *)
Definition tool_value (t : ToolName) : M string :=
  match t with
  | ToolStr _ => raise AttributeError
  | ToolEnum m => mret (ToolType_value m)
  end.

(** ** The methods of [ClaudeCodeAgent] *)

Section Agent.

Variable env : Env.

(** [self._call_api(model, prompt)]; [None] is the failed call
    ([_check_quota] tests the answer against [None]). *)
Definition call_api (m : ModelType) (prompt : string) : M (option string) :=
  λ self w, (Ok (_call_api env w self m prompt), self,
             add_call (CallApi m prompt) w).

Definition get_model_response : M Response :=
  λ self w, (Ok (_get_model_response env w self), self,
             add_call CallModelResponse w).

Definition update_terminal_title (user_input : string) : M unit :=
  modify_world (add_call (CallUpdateTitle user_input)).

Definition save_session_summary (summary : option string) : M unit :=
  modify_world (add_call (CallSaveSummary summary)).

(** *** Construction (lines 64-105) *)

Definition _load_claude_md (path : string) : string :=
  default "" (claude_md_file env (path +:+ "/.claude/CLAUDE.md")).

Definition _get_recent_commits : list string := [].

Definition _initialize_context (path : string) : Context :=
  {| messages := [];
     todo_list := [];
     current_directory := path;
     claude_md_content := _load_claude_md path;
     recent_commits := _get_recent_commits;
     platform_info := platform env |}.

(** [ClaudeCodeAgent(api_key, project_path)] *)
Definition ClaudeCodeAgent_init (key path : string) : ClaudeCodeAgent :=
  {| api_key := key;
     project_path := path;
     context := _initialize_context path;
     current_model := SONNET;
     sub_agent_depth := 0;
     MAX_SUB_AGENT_DEPTH := 1;
     todos_path := "~/.claude/todos/";
     is_ide_integrated := ide_in_environ env |}.

(** *** The phases before the loop (lines 176-200) *)

Definition _check_quota : M bool :=
  modify_self (set_current_model HAIKU);;
  response ← call_api HAIKU "quota";
  mret (bool_decide (response ≠ None)).

Definition _check_new_topic (user_input : string) : M bool :=
  modify_self (set_current_model HAIKU);;
  let prompt :=
    "Is this a new topic different from previous conversation: "
    +:+ user_input in
  response ← call_api HAIKU prompt;
  match response with
  | None => raise AttributeError
  | Some r => mret (str_in "new_topic" (lower r))
  end.

(** [self.context.messages.insert(0, m)] *)
Definition messages_insert0 (m : Message) : M unit :=
  modify_self (λ a, set_context (set_messages (m :: messages (context a))
                                              (context a)) a).

Definition _inject_system_reminders : M unit :=
  self ← get_self;
  let start_reminder := _build_system_reminder_start env self in
  let end_reminder := _build_system_reminder_end env self in
  m1 ← Message_init (Given "system") (Given (Some start_reminder))
                    Omitted Omitted;
  messages_insert0 m1;;
  m2 ← Message_init (Given "system") (Given (Some end_reminder))
                    Omitted Omitted;
  messages_append m2.

(** *** Compaction (lines 202-225) *)

Definition sumZ (l : list Z) : Z := foldr Z.add 0%Z l.

Definition _context_needs_compaction : M bool :=
  self ← get_self;
  let total_tokens :=
    sumZ ((λ msg, _estimate_tokens env (content msg))
            <$> messages (context self)) in
  mret (100000 <? total_tokens)%Z.

Definition compact_prompt : string :=
"
        Compress the following conversation into a single block of text.
        Preserve all important information, decisions, and context.
        Format: <compressed_context>...</compressed_context>
        ".

Definition _compact_context : M unit :=
  modify_self (set_current_model SONNET);;
  compressed ← call_api SONNET compact_prompt;
  m ← Message_init (Given "system") (Given compressed) Omitted Omitted;
  modify_self (λ a, set_context (set_messages [m] (context a)) a).

(** *** The todo store (lines 227-271) *)

(** [os.listdir]: the names in the directory, in no particular order. *)
Definition listdir (d : gmap string (list JItem)) : list string :=
  (map_to_list d).*1.

(** The comprehension of lines 244-246 over [enumerate(todo_data)],
    from position [i] on: [item['description']] raises [KeyError] when
    the key is absent, [item.get('completed', False)] does not. *)
Fixpoint decode_items (i : nat) (todo_data : list JItem)
  : M (list TodoItem) :=
  match todo_data with
  | [] => mret []
  | item :: rest =>
      match j_description item with
      | None => raise KeyError
      | Some d =>
          let t := {| id := i; description := d;
                      completed := default false (j_completed item) |} in
          ts ← decode_items (S i) rest;
          mret (t :: ts)
      end
  end.

Definition _load_todo_from_json : M (list TodoItem) :=
  w ← get_world;
  match todos_dir w with
  | None => mret []
  | Some d =>
      let todo_files :=
        sorted (filter (λ f, endswith f ".json" = true) (listdir d)) in
      match last todo_files with
      | None => mret []
      | Some f =>
          match d !! f with
          | None => raise FileNotFoundError
          | Some todo_data => decode_items 0 todo_data
          end
      end
  end.

Definition _update_todo_json (ps : gmap string string) : M unit :=
  self ← get_self;
  w ← get_world;
  (* os.makedirs(todos_dir, exist_ok=True) *)
  let d := default ∅ (todos_dir w) in
  let filename := "todo_" +:+ now_strftime env w +:+ ".json" in
  let todo_data :=
    (λ task, {| j_description := Some (description task);
                j_completed := Some (completed task) |})
      <$> todo_list (context self) in
  modify_world (set_todos_dir (Some (<[filename := todo_data]> d))).

(** *** Tools and permission (lines 366-414) *)

Definition _execute_edit (ps : gmap string string) : M (gmap string Value) :=
  mret {[ "summary" := VStr "File edited"; "changes" := VList [] ]}.

Definition _execute_grep (ps : gmap string string) : M (gmap string Value) :=
  mret {[ "summary" := VStr "Search completed"; "matches" := VList [] ]}.

Definition _execute_read (ps : gmap string string) : M (gmap string Value) :=
  mret {[ "summary" := VStr "File read"; "content" := VStr "" ]}.

Definition _execute_bash (ps : gmap string string) : M (gmap string Value) :=
  mret {[ "summary" := VStr "Command executed"; "output" := VStr "" ]}.

Definition _execute_tool (tool_call : ToolCall) : M (gmap string Value) :=
  let t := tool tool_call in
  let ps := params tool_call in
  if tool_eq_enum t EDIT then _execute_edit ps
  else if tool_eq_enum t GREP then _execute_grep ps
  else if tool_eq_enum t READ then _execute_read ps
  else if tool_eq_enum t BASH then _execute_bash ps
  else if tool_eq_enum t TASK then
    mret {[ "summary" := VStr "Sub-agent task initiated" ]}
  else
    v ← tool_value t;
    mret {[ "summary" := VStr ("Executed " +:+ v); "output" := VStr "" ]}.

Definition _get_user_permission (tool_call : ToolCall) : M bool :=
  v ← tool_value (tool tool_call);
  print ("Permission requested for: " +:+ v);;
  mret true.

(** *** The exit check (lines 427-431) *)

Definition _should_exit : M bool :=
  self ← get_self;
  let all_complete := forallb completed (todo_list (context self)) in
  mret (all_complete && (0 <? length (todo_list (context self)))%nat).

(** A call of the bound method [self._should_exit], whose only
    parameter is [self]: every positional argument is one too many. *)
Definition call_should_exit {A} (args : list A) : M bool :=
  match args with
  | [] => _should_exit
  | _ :: _ => raise TypeError
  end.

(** *** Sub-agents (lines 273-301) *)

(** The agent built by lines 282-293 for a task, before its loop runs.
    The four inherited fields are the parent's own objects; no method
    of the class mutates a list of commits or a platform dictionary, so
    the sharing cannot be observed and the fields are plain values
    here. *)
Definition new_sub_agent (self : ClaudeCodeAgent) (task_description : string)
  : ClaudeCodeAgent :=
  let sub_agent := ClaudeCodeAgent_init (api_key self) (project_path self) in
  let sub_agent :=
    set_sub_agent_depth (sub_agent_depth self + 1)%nat sub_agent in
  set_context
    {| messages := [ {| role := "user"; content := Some task_description;
                        tool_calls := None; tool_results := None |} ];
       todo_list := [];
       current_directory := current_directory (context self);
       claude_md_content := claude_md_content (context self);
       recent_commits := recent_commits (context self);
       platform_info := platform_info (context self) |}
    sub_agent.

(** Run a method on another agent: the world is shared, the caller is
    back in place afterwards, and the other agent's final state is
    handed over when the method returns. *)
Definition on_agent {A} (other : ClaudeCodeAgent) (m : M A)
  : M (A * ClaudeCodeAgent) :=
  λ self w,
    match m other w with
    | (Ok a, other', w') => (Ok (a, other'), self, w')
    | (Raise e, _, w') => (Raise e, self, w')
    | (OutOfFuel, _, w') => (OutOfFuel, self, w')
    end.

Section Loop.

(** The loop of an agent one level down, with the fuel left for it. *)
Variable sub_main_loop : string → M unit.

Definition spawn_sub_agent_for_task (task_params : gmap string string)
  : M (gmap string Value) :=
  self ← get_self;
  let task_description := default "" (task_params !! "task") in
  let sub_agent := new_sub_agent self task_description in
  '(_, sub_agent) ← on_agent sub_agent (sub_main_loop task_description);
  let final_result := _extract_final_result env (context sub_agent) in
  mret {[ "task" := VStr task_description;
          "result" := VStr final_result ]}.

(** *** One processing iteration (lines 133-167) *)

(** Lines 162-167 once [_get_user_permission] has answered. *)
Definition permitted_tool (permitted : bool) (tool_call : ToolCall) : M unit :=
  if permitted then
    result ← _execute_tool tool_call;
    m ← Message_init (Given "assistant") Omitted Omitted
                     (Given (Some [result]));
    messages_append m
  else mret tt.

(** The body of the [for] loop, lines 148-167. *)
Definition dispatch (tool_call : ToolCall) : M unit :=
  if tool_eq_str (tool tool_call) "Task" then
    result ← spawn_sub_agent_for_task (params tool_call);
    m ← Message_init (Given "assistant") (Given (Some "Task completed"))
                     Omitted (Given (Some [result]));
    messages_append m
  else if tool_eq_str (tool tool_call) "TodoWrite" then
    _update_todo_json (params tool_call)
  else
    permitted ← _get_user_permission tool_call;
    permitted_tool permitted tool_call.

Fixpoint for_each (l : list ToolCall) : M unit :=
  match l with
  | [] => mret tt
  | tool_call :: rest => dispatch tool_call;; for_each rest
  end.

(** Lines 137-140. *)
Definition sync_todo_list : M unit :=
  todos ← _load_todo_from_json;
  match todos with
  | [] => mret tt
  | _ :: _ =>
      modify_self (λ a, set_context (set_todo_list todos (context a)) a)
  end.

Definition iteration : M Response :=
  needs ← _context_needs_compaction;
  (if (needs : bool) then _compact_context else ret tt);;
  sync_todo_list;;
  response ← get_model_response;
  for_each (resp_tool_calls response);;
  mret response.

(** [while True], with the iterations left. *)
Fixpoint processing_loop (fuel : nat) : M unit :=
  match fuel with
  | O => out_of_fuel
  | S fuel' =>
      response ← iteration;
      stop ← call_should_exit [response];
      if (stop : bool) then mret tt else processing_loop fuel'
  end.

End Loop.

(** *** The main loop (lines 107-174) *)

Definition summary_prompt : string :=
"
        Summarize this conversation for future reference.
        Include key decisions, completed tasks, and any pending items.
        ".

Definition _summarize_for_next_session : M unit :=
  modify_self (set_current_model HAIKU);;
  summary ← call_api HAIKU summary_prompt;
  save_session_summary summary.

(** [fuel] bounds the nesting of sub-agents and the iterations of each
    loop together. *)
Fixpoint main_loop (fuel : nat) (user_input : string) : M unit :=
  match fuel with
  | O => out_of_fuel
  | S fuel' =>
      quota ← _check_quota;
      if negb quota then print "Insufficient quota"
      else
        is_new_topic ← _check_new_topic user_input;
        (if (is_new_topic : bool) then update_terminal_title user_input else ret tt);;
        _inject_system_reminders;;
        m ← Message_init (Given "user") (Given (Some user_input))
                         Omitted Omitted;
        messages_append m;;
        modify_self (set_current_model SONNET);;
        processing_loop (main_loop fuel') fuel';;
        _summarize_for_next_session
  end.

Definition _spawn_sub_agent_for_task (fuel : nat)
  : gmap string string → M (gmap string Value) :=
  spawn_sub_agent_for_task (main_loop fuel).

End Agent.

(** ** The methods outside the main loop (lines 332-364, 416-480) *)

(** The name of a [ToolType] member. *)
Definition ToolType_name (t : ToolType) : string :=
  match t with
  | BASH => "BASH" | READ => "READ" | WRITE => "WRITE"
  | EDIT => "EDIT" | GREP => "GREP" | GLOB => "GLOB" | LS => "LS"
  | TASK => "TASK" | WEB_FETCH => "WEB_FETCH"
  | TODO_WRITE => "TODO_WRITE" | TODO_READ => "TODO_READ"
  | EXIT_PLAN_MODE => "EXIT_PLAN_MODE"
  end.

(** [f"{tool_call['tool']}"]: a string as it is, a member of the plain
    [Enum] as [ToolType.NAME]. *)
Definition format_tool (t : ToolName) : string :=
  match t with
  | ToolStr s => s
  | ToolEnum m => "ToolType." +:+ ToolType_name m
  end.

(** [l[-n:]] for a positive [n]: the last [n] elements, or all of [l]
    when it has fewer. *)
Definition last_n {A} (n : nat) (l : list A) : list A :=
  drop (length l - n) l.

(** [d[key]] on a dictionary. *)
Definition getitem {A} (d : gmap string A) (key : string) : M A :=
  match d !! key with
  | Some v => mret v
  | None => raise KeyError
  end.

Definition _plan_tool_sequence (task : TodoItem) : M (list ToolCall) :=
  let tool_sequence := [] in
  let d := lower (description task) in
  mret (if str_in "edit" d then
          tool_sequence ++ [ {| tool := ToolEnum EDIT; params := ∅ |} ]
        else if str_in "search" d then
          tool_sequence ++ [ {| tool := ToolEnum GREP; params := ∅ |} ]
        else if str_in "read" d then
          tool_sequence ++ [ {| tool := ToolEnum READ; params := ∅ |} ]
        else tool_sequence).

Section Direct.

(** [str] of a list stored in a result dictionary: the text Python
    prints for it, which nothing below depends on. *)
Variable str_of_list : list Value → string.

(** [f"{v}"] for a value of a result dictionary. *)
Definition format_value (v : Value) : string :=
  match v with
  | VStr s => s
  | VList l => str_of_list l
  end.

(** The body of the [for] loop of lines 338-348. *)
Definition execute_planned (tool_call : ToolCall) : M unit :=
  permitted ← _get_user_permission tool_call;
  if (permitted : bool) then
    result ← _execute_tool tool_call;
    summary ← getitem result "summary";
    m ← Message_init
          (Given "assistant")
          (Given (Some ("Executed " +:+ format_tool (tool tool_call)
                        +:+ ": " +:+ format_value summary)))
          Omitted (Given (Some [result]));
    messages_append m
  else mret tt.

Fixpoint execute_each (l : list ToolCall) : M unit :=
  match l with
  | [] => mret tt
  | tool_call :: rest => execute_planned tool_call;; execute_each rest
  end.

Definition _execute_task_directly (task : TodoItem) : M unit :=
  tool_sequence ← _plan_tool_sequence task;
  execute_each tool_sequence.

End Direct.

Definition _summarize_context_with_haiku : M unit :=
  self ← get_self;
  let summary := "Previous context summarized" in
  let recent := last_n 10 (messages (context self)) in
  m ← Message_init (Given "system") (Given (Some summary)) Omitted Omitted;
  modify_self (λ a, set_context (set_messages ([m] ++ recent) (context a)) a).




Definition _create_sub_agent_context (self : ClaudeCodeAgent) (task : TodoItem)
  : Context :=
  {| messages := [ {| role := "user"; content := Some (description task);
                      tool_calls := None; tool_results := None |} ];
     todo_list := [];
     current_directory := current_directory (context self);
     claude_md_content := claude_md_content (context self);
     recent_commits := recent_commits (context self);
     platform_info := platform_info (context self) |}.

(** The steps of [main_loop] before its loop, lines 113-130; the
    answer tells whether the loop is entered. *)
Definition before_loop (env : Env) (user_input : string) : M bool :=
  quota ← _check_quota env;
  if negb quota then print "Insufficient quota";; mret false
  else
    is_new_topic ← _check_new_topic env user_input;
    (if (is_new_topic : bool) then update_terminal_title user_input
     else ret tt);;
    _inject_system_reminders env;;
    m ← Message_init (Given "user") (Given (Some user_input))
                     Omitted Omitted;
    messages_append m;;
    modify_self (set_current_model SONNET);;
    mret true.

(** ** Concrete agents and worlds, used to run the code *)

Module Demo.

Definition no_tools : Response :=
  {| resp_content := "done"; resp_tool_calls := [];
     completion_signal := false |}.

Definition signalling : Response :=
  {| resp_content := "done"; resp_tool_calls := [];
     completion_signal := true |}.

(** An environment given by its model: [api] answers [_call_api],
    [model] answers [_get_model_response]. *)
Definition env_of
    (api : ClaudeCodeAgent → ModelType → string → option string)
    (model : ClaudeCodeAgent → Response) : Env :=
  {| _call_api := λ _, api;
     _get_model_response := λ _, model;
     _estimate_tokens :=
       λ c, match c with
            | Some s => Z.of_nat (String.length s)
            | None => 0%Z
            end;
     _build_system_reminder_start := λ _, "<env>";
     _build_system_reminder_end := λ _, "<todos>";
     _extract_final_result := λ _, "final";
     now_strftime := λ _, "20250101_120000";
     claude_md_file := λ _, None;
     platform := {[ "os" := "Linux" ]};
     ide_in_environ := false |}.

Definition always_ok : ClaudeCodeAgent → ModelType → string → option string :=
  λ _ _ _, Some "ok".

Definition no_quota : ClaudeCodeAgent → ModelType → string → option string :=
  λ _ _ _, None.

Definition quiet : Env := env_of always_ok (λ _, no_tools).

Definition root : ClaudeCodeAgent :=
  ClaudeCodeAgent_init quiet "your-api-key" "/path/to/project".

Definition world0 : World :=
  {| todos_dir := None; stdout := []; calls := [] |}.

(** A store with two snapshots and a file that is none. *)
Definition two_snapshots : World :=
  {| todos_dir :=
       Some {[ "todo_20250101_120000.json" :=
                 [ {| j_description := Some "old plan";
                      j_completed := Some true |} ];
               "todo_20250102_090000.json" :=
                 [ {| j_description := Some "write tests";
                      j_completed := None |};
                   {| j_description := Some "fix bug";
                      j_completed := Some true |} ];
               "notes.txt" := [] ]};
     stdout := []; calls := [] |}.

(** A store with one snapshot, older than the clock of [env_of]. *)
Definition yesterday : World :=
  {| todos_dir :=
       Some {[ "todo_20241231_235959.json" :=
                 [ {| j_description := Some "old plan";
                      j_completed := Some true |} ] ]};
     stdout := []; calls := [] |}.

(** A store whose latest snapshot has an object without description. *)
Definition broken : World :=
  {| todos_dir :=
       Some {[ "todo_20250101_120000.json" :=
                 [ {| j_description := Some "old plan";
                      j_completed := Some true |} ];
               "todo_20250104_000000.json" :=
                 [ {| j_description := Some "write tests";
                      j_completed := Some false |};
                   {| j_description := None;
                      j_completed := Some true |} ] ]};
     stdout := []; calls := [] |}.

(** A store whose latest snapshot is the empty list. *)
Definition emptied : World :=
  {| todos_dir :=
       Some {[ "todo_20250101_120000.json" :=
                 [ {| j_description := Some "old plan";
                      j_completed := Some true |} ];
               "todo_20250103_000000.json" := [] ]};
     stdout := []; calls := [] |}.

Definition write_tests : TodoItem :=
  {| id := 0; description := "write tests"; completed := false |}.

(** The root agent with one open item in memory. *)
Definition busy : ClaudeCodeAgent :=
  set_context (set_todo_list [write_tests] (context root)) root.

Definition edit_call : ToolCall :=
  {| tool := ToolEnum EDIT; params := ∅ |}.

(** The root agent with a history of twenty messages. *)
Definition chatty : ClaudeCodeAgent :=
  set_context
    (set_messages
       (replicate 20 {| role := "user"; content := Some "more";
                        tool_calls := None; tool_results := None |})
       (context root)) root.

Definition task_params : gmap string string :=
  {[ "task" := "find all TODOs" ]}.

Definition task_call : ToolCall :=
  {| tool := ToolStr "Task"; params := task_params |}.

Definition delegating : Response :=
  {| resp_content := "delegating"; resp_tool_calls := [task_call];
     completion_signal := false |}.

(** The quota call is answered, no other call is. *)
Definition quota_only : ClaudeCodeAgent → ModelType → string → option string :=
  λ _ _ prompt, if bool_decide (prompt = "quota") then Some "ok" else None.

Definition mute : Env := env_of quota_only (λ _, no_tools).

(** As [quiet], with every message estimated at 60000 tokens. *)
Definition bloated : Env :=
  {| _call_api := _call_api quiet;
     _get_model_response := _get_model_response quiet;
     _estimate_tokens := λ _, 60000%Z;
     _build_system_reminder_start := _build_system_reminder_start quiet;
     _build_system_reminder_end := _build_system_reminder_end quiet;
     _extract_final_result := _extract_final_result quiet;
     now_strftime := now_strftime quiet;
     claude_md_file := claude_md_file quiet;
     platform := platform quiet;
     ide_in_environ := ide_in_environ quiet |}.

(** No quota at all: every loop returns at its first step. *)
Definition starved : Env := env_of no_quota (λ _, no_tools).

(** The model delegates at every turn, whatever the depth of the
    agent that asks; only an agent at depth 2 finds its quota
    used up. *)
Definition no_quota_at_depth_2
  : ClaudeCodeAgent → ModelType → string → option string :=
  λ a _ _, if bool_decide (sub_agent_depth a = 2%nat) then None
           else Some "ok".

Definition delegator : Env := env_of no_quota_at_depth_2 (λ _, delegating).

End Demo.

(** ** Notions used in the statements *)

(** The exit rule as the specification words it, over the response of
    the iteration and the todo list of the agent. *)
Definition exit_rule_of_spec (response : Response) (todos : list TodoItem)
  : bool :=
  completion_signal response
  || (negb (bool_decide (todos = [])) && forallb completed todos).

(** The serialization of lines 262-268: description and completed flag
    of each item, in order. *)
Definition todo_data_of (todos : list TodoItem) : list JItem :=
  (λ task, {| j_description := Some (description task);
              j_completed := Some (completed task) |}) <$> todos.

Definition system_message (text : option string) : Message :=
  {| role := "system"; content := text;
     tool_calls := None; tool_results := None |}.

(** A snapshot of the store: a file of the todo directory whose name
    ends in [.json]. *)
Definition is_snapshot (w : World) (f : string) : Prop :=
  ∃ d, todos_dir w = Some d ∧ is_Some (d !! f) ∧ endswith f ".json" = true.

(** The item a persisted object decodes to at position [i]. *)
Definition item_at (i : nat) (item : JItem) : TodoItem :=
  {| id := i;
     description := default "" (j_description item);
     completed := default false (j_completed item) |}.

(** What loading [Demo.two_snapshots] gives, and the objects of its
    latest snapshot. *)
Definition loaded_two : list TodoItem :=
  [ {| id := 0; description := "write tests"; completed := false |};
    {| id := 1; description := "fix bug"; completed := true |} ].

Definition two_data : list JItem :=
  [ {| j_description := Some "write tests"; j_completed := None |};
    {| j_description := Some "fix bug"; j_completed := Some true |} ].

(** [self.context.todo_list = todos] *)
Definition overwrite_todo_list (todos : list TodoItem)
    (self : ClaudeCodeAgent) : ClaudeCodeAgent :=
  set_context (set_todo_list todos (context self)) self.

(** The message a finished task is folded into (lines 152-156). *)
Definition task_message (task_description final_result : string) : Message :=
  {| role := "assistant"; content := Some "Task completed";
     tool_calls := None;
     tool_results := Some [ {[ "task" := VStr task_description;
                               "result" := VStr final_result ]} ] |}.

(** The agent after [self.context.messages.append(m)]. *)
Definition append_message (m : Message) (self : ClaudeCodeAgent)
  : ClaudeCodeAgent :=
  set_context (set_messages (messages (context self) ++ [m]) (context self))
              self.

Definition user_message (text : string) : Message :=
  {| role := "user"; content := Some text;
     tool_calls := None; tool_results := None |}.

(** The message [_execute_task_directly] records for an executed tool
    (lines 345-347). *)
Definition executed_message (t : ToolType) (summary : string)
    (result : gmap string Value) : Message :=
  {| role := "assistant";
     content := Some ("Executed ToolType." +:+ ToolType_name t
                      +:+ ": " +:+ summary);
     tool_calls := None;
     tool_results := Some [result] |}.

(** The agent with its messages replaced. *)
Definition with_messages (ms : list Message) (self : ClaudeCodeAgent)
  : ClaudeCodeAgent :=
  set_context (set_messages ms (context self)) self.

(** The message [_summarize_context_with_haiku] puts in front. *)
Definition summary_message : Message :=
  {| role := "system"; content := Some "Previous context summarized";
     tool_calls := None; tool_results := None |}.

(** The item with its position for [id], as a load numbers it. *)
Definition renumbered (i : nat) (task : TodoItem) : TodoItem :=
  {| id := i; description := description task; completed := completed task |}.

(** A method keeps a relation on agents and one on worlds when every
    run of it, however it ends, leaves an agent and a world related to
    the ones it started from. *)
Definition keeps (Ra : relation ClaudeCodeAgent) (Rw : relation World)
    {A} (m : M A) : Prop :=
  ∀ self w, Ra self (m self w).1.2 ∧ Rw w (m self w).2.

(** A method that never returns normally. *)
Definition never_returns {A} (m : M A) : Prop :=
  ∀ self w a, (m self w).1.1 ≠ Ok a.

(** The names of the files of the todo directory. *)
Definition files (w : World) : gset string :=
  dom (default ∅ (todos_dir w)).

(** The fields of an agent that tell which agent it is, and the part
    of its context that describes the project. *)
Definition same_identity (a a' : ClaudeCodeAgent) : Prop :=
  api_key a' = api_key a ∧
  project_path a' = project_path a ∧
  sub_agent_depth a' = sub_agent_depth a ∧
  MAX_SUB_AGENT_DEPTH a' = MAX_SUB_AGENT_DEPTH a ∧
  todos_path a' = todos_path a ∧
  is_ide_integrated a' = is_ide_integrated a ∧
  current_directory (context a') = current_directory (context a) ∧
  claude_md_content (context a') = claude_md_content (context a) ∧
  recent_commits (context a') = recent_commits (context a) ∧
  platform_info (context a') = platform_info (context a).

(** ** Unfolding the monad *)

Ltac unfold_monad :=
  unfold mbind, M_bind, mret, M_ret, bind, ret, raise, out_of_fuel,
    get_self, get_world, modify_self, modify_world, print,
    messages_append, messages_insert0, Message_init in *.

(** ** The exit check *)

Lemma _should_exit_eq self w :
  _should_exit self w =
  (Ok (forallb completed (todo_list (context self))
       && negb (bool_decide (todo_list (context self) = []))), self, w).
Proof.
  unfold _should_exit. unfold_monad.
  by destruct (todo_list (context self)).
Qed.

(** C2, as amended: the exit check answers true exactly when the todo
    list is non-empty and every item of it is completed; it reads
    nothing else (no response reaches it), leaves the agent and the
    world alone, and answers false on an empty list. *)
Theorem C2_should_exit_iff_todos_all_done self w :
  ∃ b, _should_exit self w = (Ok b, self, w) ∧
       (b = true ↔ todo_list (context self) ≠ [] ∧
                   ∀ task, task ∈ todo_list (context self) →
                           completed task = true).
Proof.
  eexists. split; [apply _should_exit_eq|].
  rewrite andb_true_iff, negb_true_iff, bool_decide_eq_false.
  rewrite forallb_forall. setoid_rewrite <- list_elem_of_In. tauto.
Qed.

(** C2, as stated, fails: the response carries the completion signal
    and the todo list is empty, so the rule of the specification says
    exit, while the check of the source answers false; the call of
    line 170, which passes the response along, raises instead of
    answering. *)
Lemma C2_counterexample :
  exit_rule_of_spec Demo.signalling (todo_list (context Demo.root)) = true ∧
  _should_exit Demo.root Demo.world0 = (Ok false, Demo.root, Demo.world0) ∧
  call_should_exit [Demo.signalling] Demo.root Demo.world0
  = (Raise TypeError, Demo.root, Demo.world0).
Proof. by repeat split. Qed.

(** ** Quota failure *)

(** C9: when the quota call gives no answer, [main_loop] returns
    normally at once.  The agent differs from the initial one only in
    [current_model]; its context, messages included, is the initial
    one.  The world gains the one quota call and the line
    [Insufficient quota] on standard output: no later phase ran, no
    model response was asked for, and the todo directory is as it
    was. *)
Theorem C9_quota_failure_returns_at_once env fuel user_input self w :
  _call_api env w (set_current_model HAIKU self) HAIKU "quota" = None →
  ∃ self' w',
    main_loop env (S fuel) user_input self w = (Ok tt, self', w') ∧
    self' = set_current_model HAIKU self ∧
    context self' = context self ∧
    messages (context self') = messages (context self) ∧
    stdout w' = stdout w ++ ["Insufficient quota"] ∧
    calls w' = calls w ++ [CallApi HAIKU "quota"] ∧
    (CallModelResponse ∉ drop (length (calls w)) (calls w')) ∧
    todos_dir w' = todos_dir w.
Proof.
  intros Hquota. do 2 eexists. split.
  - simpl. unfold _check_quota, call_api. unfold_monad.
    rewrite Hquota. simpl. reflexivity.
  - simpl. repeat split.
    rewrite drop_app_length. by intros ?%list_elem_of_singleton.
Qed.

Lemma C9_quota_failure_witness :
  ∃ self' w',
    main_loop (Demo.env_of Demo.no_quota (λ _, Demo.no_tools)) 1 "fix bug"
              Demo.root Demo.world0 = (Ok tt, self', w') ∧
    self' = set_current_model HAIKU Demo.root ∧
    context self' = context Demo.root ∧
    messages (context self') = messages (context Demo.root) ∧
    stdout w' = stdout Demo.world0 ++ ["Insufficient quota"] ∧
    calls w' = calls Demo.world0 ++ [CallApi HAIKU "quota"] ∧
    (CallModelResponse ∉ drop (length (calls Demo.world0)) (calls w')) ∧
    todos_dir w' = todos_dir Demo.world0.
Proof.
  apply (C9_quota_failure_returns_at_once
           (Demo.env_of Demo.no_quota (λ _, Demo.no_tools)) 0 "fix bug"
           Demo.root Demo.world0).
  reflexivity.
Defined.

(** ** Saving the todo list *)

Lemma dispatch_TodoWrite env sub ps self w :
  dispatch env sub {| tool := ToolStr "TodoWrite"; params := ps |} self w
  = _update_todo_json env ps self w.
Proof. reflexivity. Qed.

Lemma _update_todo_json_eq env ps self w :
  _update_todo_json env ps self w =
  (Ok tt, self,
   set_todos_dir
     (Some (<["todo_" +:+ now_strftime env w +:+ ".json"
              := todo_data_of (todo_list (context self))]>
              (default ∅ (todos_dir w)))) w).
Proof. reflexivity. Qed.

(** C10: the dispatch of a [TodoWrite] call returns normally, leaves
    the agent as it is, and writes one file, named after the time of
    the call, whose content is the serialization of the in-memory todo
    list; every other file of the directory is as before, and the
    params of the call make no difference to the outcome. *)
Theorem C10_todo_write_saves_memory_list env sub ps self w :
  let call := {| tool := ToolStr "TodoWrite"; params := ps |} in
  let filename := "todo_" +:+ now_strftime env w +:+ ".json" in
  ∃ w' d',
    dispatch env sub call self w = (Ok tt, self, w') ∧
    todos_dir w' = Some d' ∧
    d' !! filename = Some (todo_data_of (todo_list (context self))) ∧
    (∀ f, f ≠ filename → d' !! f = default ∅ (todos_dir w) !! f) ∧
    stdout w' = stdout w ∧ calls w' = calls w ∧
    ∀ ps', dispatch env sub {| tool := ToolStr "TodoWrite"; params := ps' |}
                    self w
           = dispatch env sub call self w.
Proof.
  intros call filename. subst call. do 2 eexists.
  split; [rewrite dispatch_TodoWrite; apply _update_todo_json_eq|].
  simpl. split; [reflexivity|]. split; [apply lookup_insert_eq|].
  split; [intros f Hf; by apply lookup_insert_ne|].
  repeat split.
Qed.

(** ** Compaction *)

Lemma _compact_context_eq env self w :
  _compact_context env self w =
  let self1 := set_current_model SONNET self in
  (Ok tt,
   set_context
     (set_messages [system_message (_call_api env w self1 SONNET compact_prompt)]
                   (context self)) self1,
   add_call (CallApi SONNET compact_prompt) w).
Proof. reflexivity. Qed.

(** C6: compaction asks the model once, with the compaction prompt,
    returns normally and leaves exactly one message, the system message
    holding the text the model answered, whatever the messages were
    before; the rest of the context is untouched.  Compacting again
    right away asks the model again and gives a state of the same
    shape, and the same agent when the model answers the same text. *)
Theorem C6_compaction_single_system_message env self w :
  let text1 := _call_api env w (set_current_model SONNET self) SONNET
                 compact_prompt in
  ∃ self1 w1,
    _compact_context env self w = (Ok tt, self1, w1) ∧
    messages (context self1) = [system_message text1] ∧
    set_messages [] (context self1) = set_messages [] (context self) ∧
    calls w1 = calls w ++ [CallApi SONNET compact_prompt] ∧
    let text2 := _call_api env w1 self1 SONNET compact_prompt in
    ∃ self2 w2,
      _compact_context env self1 w1 = (Ok tt, self2, w2) ∧
      messages (context self2) = [system_message text2] ∧
      set_messages [] (context self2) = set_messages [] (context self) ∧
      calls w2 = calls w1 ++ [CallApi SONNET compact_prompt] ∧
      (text2 = text1 → self2 = self1).
Proof.
  intros text1. do 2 eexists. split; [apply _compact_context_eq|].
  split; [reflexivity|]. split; [reflexivity|]. split; [reflexivity|].
  intros text2. do 2 eexists. split; [apply _compact_context_eq|].
  split; [reflexivity|]. split; [reflexivity|]. split; [reflexivity|].
  intros Heq.
  change (set_context (set_messages [system_message text2] (context self))
                      (set_current_model SONNET self)
          = set_context (set_messages [system_message text1] (context self))
                        (set_current_model SONNET self)).
  by rewrite Heq.
Qed.

(** ** Loading the todo list *)

(** The last name of the sorted listing is one of the names and is
    above every other. *)
Lemma last_sorted_greatest (l : list string) :
  l ≠ [] →
  ∃ f, last (sorted l) = Some f ∧ f ∈ l ∧ ∀ g, g ∈ l → (g ≤ f)%string.
Proof.
  intros Hl. unfold sorted.
  pose proof (merge_sort_Permutation String.le l) as Hperm.
  pose proof (StronglySorted_merge_sort String.le l) as Hsorted.
  destruct (last (merge_sort String.le l)) as [f|] eqn:Hlast.
  - exists f. split; [done|].
    apply last_Some in Hlast as [l' Hl'].
    rewrite Hl' in Hperm, Hsorted. split.
    + rewrite <- Hperm. apply elem_of_app. right. by left.
    + intros g Hg. rewrite <- Hperm in Hg.
      apply elem_of_app in Hg as [Hg|Hg].
      * eapply StronglySorted_app_1_elem_of; [done..|by left].
      * apply list_elem_of_singleton in Hg as ->. reflexivity.
  - apply last_None in Hlast. rewrite Hlast in Hperm.
    by apply Permutation_nil_l in Hperm.
Qed.

Lemma elem_of_listdir (d : gmap string (list JItem)) f :
  f ∈ listdir d ↔ is_Some (d !! f).
Proof.
  unfold listdir. rewrite list_elem_of_fmap. split.
  - intros [[g x] [-> Hin]]. apply elem_of_map_to_list in Hin. by exists x.
  - intros [x Hx]. exists (f, x). split; [done|].
    by apply elem_of_map_to_list.
Qed.

Lemma decode_items_described i todo_data self w :
  Forall (λ item, is_Some (j_description item)) todo_data →
  decode_items i todo_data self w
  = (Ok (imap (λ k, item_at (i + k)) todo_data), self, w).
Proof.
  intros Hall. revert i.
  induction Hall as [|item rest [d Hd] _ IH]; intros i; [done|].
  simpl. rewrite Hd. unfold_monad. rewrite IH. simpl.
  unfold item_at at 2. rewrite Hd, Nat.add_0_r. simpl.
  rewrite (imap_ext _ ((λ k, item_at (i + k)) ∘ S) rest); [done|].
  intros k x _. simpl. by rewrite Nat.add_succ_r.
Qed.

Lemma snapshot_in_listing w d f :
  todos_dir w = Some d →
  f ∈ filter (λ f, endswith f ".json" = true) (listdir d) ↔ is_snapshot w f.
Proof.
  intros Hd. rewrite list_elem_of_filter, elem_of_listdir. split.
  - intros [? ?]. by exists d.
  - intros (d' & Hd' & ? & ?). by simplify_eq.
Qed.

Lemma load_without_snapshot self w :
  (∀ f, ¬ is_snapshot w f) →
  _load_todo_from_json self w = (Ok [], self, w).
Proof.
  intros Hnone. unfold _load_todo_from_json. unfold_monad.
  destruct (todos_dir w) as [d|] eqn:Hd; [|done].
  destruct (filter _ (listdir d)) as [|f l] eqn:Hl; [done|].
  exfalso. apply (Hnone f). apply (snapshot_in_listing w d f Hd).
  rewrite Hl. by left.
Qed.

Lemma load_greatest_snapshot self w d f todo_data :
  todos_dir w = Some d →
  d !! f = Some todo_data →
  endswith f ".json" = true →
  (∀ g, is_snapshot w g → (g ≤ f)%string) →
  Forall (λ item, is_Some (j_description item)) todo_data →
  _load_todo_from_json self w = (Ok (imap item_at todo_data), self, w).
Proof.
  intros Hd Hf Hjson Hmax Hall.
  unfold _load_todo_from_json. unfold_monad. rewrite Hd.
  assert (Hin : f ∈ filter (λ f, endswith f ".json" = true) (listdir d)).
  { apply (snapshot_in_listing w d f Hd). by exists d. }
  destruct (last_sorted_greatest
              (filter (λ f, endswith f ".json" = true) (listdir d)))
    as (f' & -> & Hf' & Hge).
  { intros Hnil. rewrite Hnil in Hin. by apply elem_of_nil in Hin. }
  assert (f' = f) as ->.
  { apply (anti_symm String.le); [|by apply Hge].
    apply Hmax. by apply (snapshot_in_listing w d f' Hd). }
  rewrite Hf. by rewrite decode_items_described.
Qed.

Lemma greatest_snapshot_exists w f0 :
  is_snapshot w f0 →
  ∃ f, is_snapshot w f ∧ ∀ g, is_snapshot w g → (g ≤ f)%string.
Proof.
  intros (d & Hd & Hf0).
  destruct (last_sorted_greatest
              (filter (λ f, endswith f ".json" = true) (listdir d)))
    as (f & _ & Hf & Hge).
  { intros Hnil.
    assert (Hin : f0 ∈ filter (λ f, endswith f ".json" = true) (listdir d))
      by (apply (snapshot_in_listing w d f0 Hd); by exists d).
    rewrite Hnil in Hin. by apply elem_of_nil in Hin. }
  exists f. split; [by apply (snapshot_in_listing w d f Hd)|].
  intros g Hg. apply Hge. by apply (snapshot_in_listing w d g Hd).
Qed.

(** C7: loading returns the empty list, normally, when the store holds
    no snapshot; when a snapshot carries the greatest name among all
    snapshots and each of its objects has a description, loading
    returns its objects in order, numbered from 0 by position, with a
    missing [completed] read as false.  Whenever a snapshot exists, one
    of greatest name exists.  Loading changes neither agent nor
    world. *)
Theorem C7_load_returns_greatest_snapshot self w :
  ((∀ f, ¬ is_snapshot w f) →
   _load_todo_from_json self w = (Ok [], self, w)) ∧
  (∀ d f todo_data,
     todos_dir w = Some d →
     d !! f = Some todo_data →
     endswith f ".json" = true →
     (∀ g, is_snapshot w g → (g ≤ f)%string) →
     Forall (λ item, is_Some (j_description item)) todo_data →
     _load_todo_from_json self w = (Ok (imap item_at todo_data), self, w)) ∧
  (∀ f0, is_snapshot w f0 →
     ∃ f, is_snapshot w f ∧ ∀ g, is_snapshot w g → (g ≤ f)%string).
Proof.
  split; [apply load_without_snapshot|].
  split; [apply load_greatest_snapshot|apply greatest_snapshot_exists].
Qed.

(** The names of the two demonstration stores are bounded by their
    latest snapshot. *)
Lemma two_snapshots_greatest g :
  is_snapshot Demo.two_snapshots g → (g ≤ "todo_20250102_090000.json")%string.
Proof.
  intros (d & Hd & [x Hx] & Hjson). injection Hd as <-.
  apply lookup_insert_Some in Hx as [[<- _]|[_ Hx]]; [by vm_compute|].
  apply lookup_insert_Some in Hx as [[<- _]|[_ Hx]]; [by vm_compute|].
  apply lookup_singleton_Some in Hx as [<- _].
  vm_compute in Hjson. discriminate Hjson.
Defined.

Lemma emptied_greatest g :
  is_snapshot Demo.emptied g → (g ≤ "todo_20250103_000000.json")%string.
Proof.
  intros (d & Hd & [x Hx] & Hjson). injection Hd as <-.
  apply lookup_insert_Some in Hx as [[<- _]|[_ Hx]]; [by vm_compute|].
  apply lookup_singleton_Some in Hx as [<- _]. by vm_compute.
Qed.

Lemma load_two_snapshots self :
  _load_todo_from_json self Demo.two_snapshots
  = (Ok loaded_two, self, Demo.two_snapshots).
Proof.
  apply (load_greatest_snapshot self Demo.two_snapshots _
           "todo_20250102_090000.json" two_data eq_refl).
  - vm_compute; reflexivity.
  - vm_compute; reflexivity.
  - apply two_snapshots_greatest.
  - repeat constructor; by eexists.
Qed.

Lemma C7_load_witness :
  _load_todo_from_json Demo.root Demo.world0
  = (Ok [], Demo.root, Demo.world0) ∧
  _load_todo_from_json Demo.root Demo.two_snapshots
  = (Ok loaded_two, Demo.root, Demo.two_snapshots).
Proof.
  split.
  - apply (proj1 (C7_load_returns_greatest_snapshot Demo.root Demo.world0)).
    intros f (d & Hd & _). discriminate Hd.
  - apply (proj1 (proj2 (C7_load_returns_greatest_snapshot
                           Demo.root Demo.two_snapshots))
             _ "todo_20250102_090000.json" two_data eq_refl).
    + vm_compute; reflexivity.
    + vm_compute; reflexivity.
    + apply two_snapshots_greatest.
    + repeat constructor; by eexists.
Defined.

Lemma decode_items_pure i todo_data :
  ∃ r, ∀ self w, decode_items i todo_data self w = (r, self, w).
Proof.
  revert i. induction todo_data as [|item rest IH]; intros i.
  - by exists (Ok []).
  - simpl. destruct (j_description item) as [d|]; [|by exists (Raise KeyError)].
    destruct (IH (S i)) as [r Hr]. unfold_monad.
    destruct r as [ts|e|]; eexists; intros self w; rewrite Hr; reflexivity.
Qed.

(** ** Reloading the todo list in the loop *)

Lemma bind_Ok {A B} (m : M A) (k : A → M B) self w a self' w' :
  m self w = (Ok a, self', w') → (m ≫= k) self w = k a self' w'.
Proof. intros Hm. unfold mbind, M_bind, bind. by rewrite Hm. Qed.

(** Loading reads nothing but the todo directory. *)
Lemma load_reads_the_store_only self w self' w' :
  todos_dir w' = todos_dir w →
  ∃ r, _load_todo_from_json self w = (r, self, w) ∧
       _load_todo_from_json self' w' = (r, self', w').
Proof.
  intros Hsame. unfold _load_todo_from_json. unfold_monad. rewrite Hsame.
  destruct (todos_dir w) as [d|]; [|by eexists].
  destruct (last _) as [f|]; [|by eexists].
  destruct (d !! f) as [todo_data|]; [|by eexists].
  destruct (decode_items_pure 0 todo_data) as [r Hr].
  exists r. by rewrite !Hr.
Qed.

(** C8, as amended: every iteration reloads the todo list, after the
    compaction when there is one and before the model is asked.  The
    reload of lines 137-140 overwrites the in-memory list with the
    loaded one when the loaded list is non-empty, and leaves the
    in-memory list as it is when the loaded list is empty, whether
    for want of a snapshot or because the latest snapshot is the empty
    list; nothing else of the agent or the world changes.  The
    iteration goes on to the model call from the agent so reloaded. *)
Theorem C8_reload_overwrites_when_non_empty env sub self w todos :
  _load_todo_from_json self w = (Ok todos, self, w) →
  let reload a := if bool_decide (todos = []) then a
                  else overwrite_todo_list todos a in
  let needs :=
    (100000 <? sumZ ((λ msg, _estimate_tokens env (content msg))
                       <$> messages (context self)))%Z in
  let text := _call_api env w (set_current_model SONNET self) SONNET
                compact_prompt in
  let self1 := if needs
               then with_messages [system_message text]
                                  (set_current_model SONNET self)
               else self in
  let w1 := if needs then add_call (CallApi SONNET compact_prompt) w else w in
  sync_todo_list self w = (Ok tt, reload self, w) ∧
  sync_todo_list self1 w1 = (Ok tt, reload self1, w1) ∧
  iteration env sub self w
  = (get_model_response env
       ≫= λ response, for_each env sub (resp_tool_calls response);;
                      mret response) (reload self1) w1.
Proof.
  intros Hload reload needs text self1 w1.
  assert (Hsync : ∀ a v, todos_dir v = todos_dir w →
                         sync_todo_list a v = (Ok tt, reload a, v)).
  { intros a v Hv.
    destruct (load_reads_the_store_only self w a v Hv) as (r & Hr & Hr').
    rewrite Hload in Hr. injection Hr as <-.
    unfold sync_todo_list. unfold_monad. rewrite Hr'. subst reload.
    by destruct todos. }
  assert (Hw1 : todos_dir w1 = todos_dir w) by (subst w1; by destruct needs).
  split; [by apply Hsync|]. split; [by apply Hsync|].
  specialize (Hsync self1 w1 Hw1).
  assert (Hneeds : _context_needs_compaction env self w = (Ok needs, self, w))
    by reflexivity.
  assert (Hstep : (if needs then _compact_context env else ret tt) self w
                  = (Ok tt, self1, w1)).
  { subst self1 w1. destruct needs; [apply _compact_context_eq|reflexivity]. }
  unfold iteration.
  rewrite (bind_Ok _ _ _ _ _ _ _ Hneeds), (bind_Ok _ _ _ _ _ _ _ Hstep).
  by rewrite (bind_Ok _ _ _ _ _ _ _ Hsync).
Qed.

Lemma C8_reload_witness :
  (* an iteration without compaction *)
  (sync_todo_list Demo.root Demo.two_snapshots
   = (Ok tt, overwrite_todo_list loaded_two Demo.root, Demo.two_snapshots) ∧
   iteration Demo.quiet (main_loop Demo.quiet 0) Demo.root Demo.two_snapshots
   = (get_model_response Demo.quiet
        ≫= λ response,
             for_each Demo.quiet (main_loop Demo.quiet 0)
                      (resp_tool_calls response);;
             mret response)
       (overwrite_todo_list loaded_two Demo.root) Demo.two_snapshots) ∧
  (* an iteration that compacts first *)
  (let compacted :=
     with_messages [system_message (Some "ok")]
                   (set_current_model SONNET Demo.chatty) in
   let w1 := add_call (CallApi SONNET compact_prompt) Demo.two_snapshots in
   sync_todo_list compacted w1
   = (Ok tt, overwrite_todo_list loaded_two compacted, w1) ∧
   iteration Demo.bloated (main_loop Demo.bloated 0) Demo.chatty
             Demo.two_snapshots
   = (get_model_response Demo.bloated
        ≫= λ response,
             for_each Demo.bloated (main_loop Demo.bloated 0)
                      (resp_tool_calls response);;
             mret response)
       (overwrite_todo_list loaded_two compacted) w1).
Proof.
  split.
  - pose proof (C8_reload_overwrites_when_non_empty
                  Demo.quiet (main_loop Demo.quiet 0) Demo.root
                  Demo.two_snapshots loaded_two
                  (load_two_snapshots Demo.root)) as (H1 & _ & H3).
    split; [exact H1|exact H3].
  - pose proof (C8_reload_overwrites_when_non_empty
                  Demo.bloated (main_loop Demo.bloated 0) Demo.chatty
                  Demo.two_snapshots loaded_two
                  (load_two_snapshots Demo.chatty)) as (_ & H2 & H3).
    split; [exact H2|exact H3].
Defined.

(** C8, as stated, fails: the latest snapshot of the store is the empty
    list, one item is in memory, and after the reload the item is still
    there. *)
Lemma C8_counterexample :
  is_snapshot Demo.emptied "todo_20250103_000000.json" ∧
  (∀ g, is_snapshot Demo.emptied g → (g ≤ "todo_20250103_000000.json")%string) ∧
  todos_dir Demo.emptied ≫= (.!! "todo_20250103_000000.json") = Some [] ∧
  _load_todo_from_json Demo.busy Demo.emptied
  = (Ok [], Demo.busy, Demo.emptied) ∧
  sync_todo_list Demo.busy Demo.emptied = (Ok tt, Demo.busy, Demo.emptied) ∧
  todo_list (context Demo.busy) = [Demo.write_tests].
Proof.
  assert (Hload : _load_todo_from_json Demo.busy Demo.emptied
                  = (Ok [], Demo.busy, Demo.emptied)).
  { apply (load_greatest_snapshot Demo.busy Demo.emptied _
             "todo_20250103_000000.json" [] eq_refl).
    - vm_compute; reflexivity.
    - vm_compute; reflexivity.
    - apply emptied_greatest.
    - constructor. }
  split.
  { eexists. split; [reflexivity|]. split; [|vm_compute; reflexivity].
    exists []. vm_compute; reflexivity. }
  split; [apply emptied_greatest|].
  split; [vm_compute; reflexivity|]. split; [exact Hload|]. split; [|done].
  unfold sync_todo_list. unfold_monad. by rewrite Hload.
Qed.

(** ** Permission *)

Lemma permitted_tool_denied tool_call self w :
  permitted_tool false tool_call self w = (Ok tt, self, w).
Proof. reflexivity. Qed.

(** ** Sub-agents *)

Lemma dispatch_Task env sub ps self w :
  dispatch env sub {| tool := ToolStr "Task"; params := ps |} self w =
  let task := default "" (ps !! "task") in
  match sub task (new_sub_agent env self task) w with
  | (Ok _, child', w') =>
      (Ok tt,
       append_message
         (task_message task (_extract_final_result env (context child'))) self,
       w')
  | (Raise e, _, w') => (Raise e, self, w')
  | (OutOfFuel, _, w') => (OutOfFuel, self, w')
  end.
Proof.
  unfold dispatch. simpl. unfold spawn_sub_agent_for_task, on_agent.
  unfold_monad. simpl.
  destruct (sub _ _ w) as [[[[]|e|] child'] w']; reflexivity.
Qed.

Lemma new_sub_agent_depth env self task :
  sub_agent_depth (new_sub_agent env self task) = S (sub_agent_depth self) ∧
  MAX_SUB_AGENT_DEPTH (new_sub_agent env self task) = 1%nat.
Proof. simpl. split; [lia|done]. Qed.

(** The agent built for a task starts from a context holding the task
    description as its one user message and an empty todo list, with
    the four project fields of the parent.  When the dispatch of the
    [Task] call returns, the child's loop has returned and the parent
    is the agent it was with the folding message appended; when the
    dispatch does not return normally, the parent is unchanged. *)
Lemma task_dispatch_frame env fuel ps self w :
  let task := default "" (ps !! "task") in
  let child := new_sub_agent env self task in
  let call := {| tool := ToolStr "Task"; params := ps |} in
  context child
  = {| messages := [user_message task];
       todo_list := [];
       current_directory := current_directory (context self);
       claude_md_content := claude_md_content (context self);
       recent_commits := recent_commits (context self);
       platform_info := platform_info (context self) |} ∧
  (∀ self' w',
     dispatch env (main_loop env fuel) call self w = (Ok tt, self', w') →
     ∃ child',
       main_loop env fuel task child w = (Ok tt, child', w') ∧
       let folded :=
         task_message task (_extract_final_result env (context child')) in
       self' = append_message folded self ∧
       messages (context self') = messages (context self) ++ [folded] ∧
       set_messages [] (context self') = set_messages [] (context self)) ∧
  (∀ r self' w',
     dispatch env (main_loop env fuel) call self w = (r, self', w') →
     r ≠ Ok tt → self' = self).
Proof.
  intros task child call. split; [reflexivity|].
  subst call child. rewrite dispatch_Task. cbv zeta. fold task.
  destruct (main_loop env fuel task (new_sub_agent env self task) w)
    as [[[[]|e|] child'] w1];
    split; intros; simplify_eq; eauto.
Qed.

(** C1, at the failing input: the agent built for a task by the root
    agent sits at depth 1, the maximum; the agent that one builds for a
    task of its own sits at depth 2, above the maximum both carry.  The
    dispatch of the [Task] call at depth 1 is not rejected: it runs the
    loop of the depth-2 agent and folds its result like any other.  In
    a whole run from the root, under a model that delegates at every
    turn, the line of the failed quota check, which only an agent at
    depth 2 can print in this world, is on standard output. *)
Theorem C1_spawn_from_max_depth_creates_child :
  let child := new_sub_agent Demo.delegator Demo.root "find all TODOs" in
  let grandchild := new_sub_agent Demo.delegator child "find all TODOs" in
  let w1 := add_stdout "Insufficient quota"
              (add_call (CallApi HAIKU "quota") Demo.world0) in
  sub_agent_depth child = MAX_SUB_AGENT_DEPTH child ∧
  sub_agent_depth grandchild = 2%nat ∧
  MAX_SUB_AGENT_DEPTH grandchild = 1%nat ∧
  dispatch Demo.delegator (main_loop Demo.delegator 1) Demo.task_call
           child Demo.world0
  = (Ok tt,
     append_message (task_message "find all TODOs" "final") child, w1) ∧
  ∃ root' w',
    main_loop Demo.delegator 3 "refactor" Demo.root Demo.world0
    = (Raise TypeError, root', w') ∧
    stdout w' = ["Insufficient quota"].
Proof.
  intros child grandchild w1.
  split; [reflexivity|]. split; [reflexivity|]. split; [reflexivity|].
  split; [vm_compute; reflexivity|].
  eexists _, _. split; [vm_compute; reflexivity|]. reflexivity.
Qed.

(** ** The reminders *)

(** Whenever the two calls before the loop are answered, [main_loop]
    reaches its loop from a context whose messages are the start
    reminder, the messages there were, the end reminder and then the
    user message: both reminders are in place before the user message
    is appended, once, outside the loop. *)
Lemma main_loop_reaches_loop env fuel user_input self w quota topic :
  let self1 := set_current_model HAIKU self in
  let w1 := add_call (CallApi HAIKU "quota") w in
  let prompt :=
    "Is this a new topic different from previous conversation: "
    +:+ user_input in
  _call_api env w self1 HAIKU "quota" = Some quota →
  _call_api env w1 self1 HAIKU prompt = Some topic →
  ∃ self2 w2,
    main_loop env (S fuel) user_input self w
    = (processing_loop env (main_loop env fuel) fuel;;
       _summarize_for_next_session env) self2 w2 ∧
    messages (context self2)
    = system_message (Some (_build_system_reminder_start env self1))
        :: messages (context self)
        ++ [system_message (Some (_build_system_reminder_end env self1));
            user_message user_input].
Proof.
  intros self1 w1 prompt Hquota Htopic. simpl.
  unfold _check_quota, _check_new_topic, call_api. unfold_monad. simpl.
  fold self1. rewrite Hquota. simpl.
  change (set_current_model HAIKU self1) with self1.
  fold w1 prompt. rewrite Htopic.
  destruct (str_in "new_topic" (lower topic)); simpl;
    eexists _, _; (split; [reflexivity|]); simpl;
    by rewrite <- app_assoc.
Qed.

(** C5, at the failing input: a run of the root agent on a fresh
    context leaves three messages, the environment reminder, the
    todo-memory reminder and then the user message: the second
    reminder precedes the user message it is documented to follow. *)
Theorem C5_end_reminder_precedes_user_message :
  ∃ self' w',
    main_loop Demo.quiet 2 "fix bug" Demo.root Demo.world0
    = (Raise TypeError, self', w') ∧
    messages (context self')
    = [ system_message (Some "<env>");
        system_message (Some "<todos>");
        user_message "fix bug" ].
Proof. eexists _, _. split; [vm_compute; reflexivity|]. reflexivity. Qed.

(** ** The loop as written *)

(** The exit check of line 170 is called with the response, which the
    method of lines 427-431 does not take: an iteration that gets as
    far as the check ends the loop with [TypeError], whatever the todo
    list and the response are. *)
Lemma processing_loop_stops_at_exit_check env sub fuel self w :
  processing_loop env sub (S fuel) self w =
  match iteration env sub self w with
  | (Ok _, self', w') => (Raise TypeError, self', w')
  | (Raise e, self', w') => (Raise e, self', w')
  | (OutOfFuel, self', w') => (OutOfFuel, self', w')
  end.
Proof.
  simpl. unfold_monad.
  destruct (iteration env sub self w) as [[[r|e|] self'] w']; reflexivity.
Qed.

(** ** Strings *)

Lemma app_String c a b : String c a +:+ b = String c (a +:+ b).
Proof. reflexivity. Qed.

Lemma prefix_spec n h : String.prefix n h = true ↔ ∃ b, h = n +:+ b.
Proof.
  revert h. induction n as [|c n IH]; intros h.
  - split; [intros _; by exists h|]. intros _. by destruct h.
  - destruct h as [|c' h]; simpl.
    { split; [done|]. intros [b Hb]. rewrite app_String in Hb.
      discriminate Hb. }
    setoid_rewrite app_String.
    destruct (Ascii.ascii_dec c c') as [->|Hne].
    + rewrite IH. split; intros [b Hb]; exists b.
      * by rewrite Hb.
      * by injection Hb.
    + split; [done|]. intros [b Hb]. injection Hb as Hc _. by destruct Hne.
Qed.

(** [str_in] is Python's [in] on strings: the needle occurs somewhere in
    the hay. *)
Lemma str_in_spec n h : str_in n h = true ↔ ∃ a b, h = a +:+ n +:+ b.
Proof.
  induction h as [|c h IH];
    [change (str_in n "") with (String.prefix n "" || false)
    |change (str_in n (String c h))
       with (String.prefix n (String c h) || str_in n h)];
    rewrite orb_true_iff, prefix_spec.
  - split.
    + intros [[b Hb]|?]; [|done]. by exists "", b.
    + intros (a & b & Hab). left.
      destruct a; [by exists b|]. rewrite app_String in Hab. discriminate Hab.
  - rewrite IH. split.
    + intros [[b Hb]|(a & b & Hab)]; [by exists "", b|].
      exists (String c a), b. by rewrite Hab.
    + intros ([|c' a] & b & Hab); [left; by exists b|right].
      rewrite app_String in Hab. injection Hab as _ Hab. by exists a, b.
Qed.

Lemma lower_app a b : lower (a +:+ b) = lower a +:+ lower b.
Proof.
  induction a as [|c a IH]; [done|].
  rewrite app_String. simpl. by rewrite IH.
Qed.

Lemma ascii_lower_idemp c : ascii_lower (ascii_lower c) = ascii_lower c.
Proof. by destruct c as [[] [] [] [] [] [] [] []]. Qed.

Lemma lower_idemp s : lower (lower s) = lower s.
Proof.
  induction s as [|c s IH]; [done|]. simpl. by rewrite ascii_lower_idemp, IH.
Qed.

(** ** Planning the tools of a task *)

(** X1: the plan of a task holds at most one tool call, with empty
    params and one of the tools EDIT, GREP and READ; it reads nothing
    but the description, in which letter case does not count; and a
    description with the word edit in it, in any letter case and
    whatever else it mentions, is planned as the one call of EDIT.
    Planning changes neither agent nor world. *)
Theorem X1_plan_at_most_one_tool task self w :
  ∃ plan,
    _plan_tool_sequence task self w = (Ok plan, self, w) ∧
    (length plan ≤ 1)%nat ∧
    (∀ tool_call, tool_call ∈ plan →
       params tool_call = ∅ ∧
       tool tool_call ∈ [ToolEnum EDIT; ToolEnum GREP; ToolEnum READ]) ∧
    (∀ other self' w',
       lower (description other) = lower (description task) →
       _plan_tool_sequence other self' w' = (Ok plan, self', w')) ∧
    (∀ before word after,
       lower word = "edit" →
       description task = before +:+ word +:+ after →
       plan = [ {| tool := ToolEnum EDIT; params := ∅ |} ]).
Proof.
  unfold _plan_tool_sequence. eexists. split; [reflexivity|].
  split; [|split; [|split]].
  - repeat case_match; simpl; lia.
  - intros tc Htc. repeat case_match; simpl in Htc;
      try (apply list_elem_of_singleton in Htc as ->; simpl; split; [done|]);
      try (by apply elem_of_nil in Htc).
    + by left.
    + right. by left.
    + do 2 right. by left.
  - intros other self' w' Hsame. unfold_monad. by rewrite Hsame.
  - intros before word after Hword Hdesc.
    assert (str_in "edit" (lower (description task)) = true) as ->; [|done].
    apply str_in_spec. exists (lower before), (lower after).
    by rewrite Hdesc, !lower_app, Hword.
Qed.

(** ** Executing tools *)

Lemma _execute_tool_enum t ps self w :
  ∃ result summary,
    _execute_tool {| tool := ToolEnum t; params := ps |} self w
    = (Ok result, self, w) ∧
    result !! "summary" = Some (VStr summary) ∧
    summary = match t with
              | EDIT => "File edited"
              | GREP => "Search completed"
              | READ => "File read"
              | BASH => "Command executed"
              | TASK => "Sub-agent task initiated"
              | _ => "Executed " +:+ ToolType_value t
              end.
Proof.
  destruct t; eexists _, _; (split; [reflexivity|]);
    (split; [vm_compute; reflexivity|reflexivity]).
Qed.

(** X2: for every member of [ToolType], whatever the params,
    [_execute_tool] returns a result dictionary whose [summary] is a
    text, and leaves agent and world as they are; for a tool given by a
    string it raises [AttributeError], again changing nothing. *)
Theorem X2_execute_tool_total_on_members tool_call self w :
  match tool tool_call with
  | ToolEnum t =>
      ∃ result summary,
        _execute_tool tool_call self w = (Ok result, self, w) ∧
        result !! "summary" = Some (VStr summary) ∧
        ∀ ps, _execute_tool {| tool := ToolEnum t; params := ps |} self w
              = (Ok result, self, w)
  | ToolStr _ =>
      _execute_tool tool_call self w = (Raise AttributeError, self, w)
  end.
Proof.
  destruct tool_call as [[s|t] ps]; simpl; [reflexivity|].
  destruct (_execute_tool_enum t ps self w) as (result & summary & Hrun & Hs & _).
  exists result, summary. split; [done|]. split; [done|].
  intros ps'. rewrite <- Hrun. by destruct t.
Qed.

Lemma execute_planned_enum str_of_list t ps self w :
  ∃ result summary,
    _execute_tool {| tool := ToolEnum t; params := ps |} self w
    = (Ok result, self, w) ∧
    result !! "summary" = Some (VStr summary) ∧
    execute_planned str_of_list {| tool := ToolEnum t; params := ps |} self w
    = (Ok tt, append_message (executed_message t summary result) self,
       add_stdout ("Permission requested for: " +:+ ToolType_value t) w).
Proof.
  destruct t; eexists _, _; (split; [reflexivity|]);
    (split; [vm_compute; reflexivity|reflexivity]).
Qed.

(** X3: [_execute_task_directly] never raises.  For a task whose plan
    is empty it changes nothing.  Otherwise it asks permission for the
    one planned tool, printing the request, executes it, and appends
    one assistant message that names the tool as [ToolType.NAME],
    quotes the summary of the result and carries the result; nothing
    else of the agent or the world changes. *)
Theorem X3_execute_task_directly_records_one_message str_of_list task self w :
  ∃ self' w',
    _execute_task_directly str_of_list task self w = (Ok tt, self', w') ∧
    ((_plan_tool_sequence task self w = (Ok [], self, w) ∧
      self' = self ∧ w' = w)
     ∨
     (∃ t result summary,
        _plan_tool_sequence task self w
        = (Ok [ {| tool := ToolEnum t; params := ∅ |} ], self, w) ∧
        _execute_tool {| tool := ToolEnum t; params := ∅ |} self w
        = (Ok result, self, w) ∧
        result !! "summary" = Some (VStr summary) ∧
        self' = append_message (executed_message t summary result) self ∧
        w' = add_stdout ("Permission requested for: " +:+ ToolType_value t)
                        w)).
Proof.
  unfold _execute_task_directly, _plan_tool_sequence.
  assert (Hone : ∀ t,
    ∃ self' w',
      (execute_planned str_of_list {| tool := ToolEnum t; params := ∅ |};;
       mret tt) self w = (Ok tt, self', w') ∧
      ∃ t' result summary,
        t = t' ∧
        _execute_tool {| tool := ToolEnum t'; params := ∅ |} self w
        = (Ok result, self, w) ∧
        result !! "summary" = Some (VStr summary) ∧
        self' = append_message (executed_message t' summary result) self ∧
        w' = add_stdout ("Permission requested for: " +:+ ToolType_value t')
                        w).
  { intros t.
    destruct (execute_planned_enum str_of_list t ∅ self w)
      as (result & summary & Hexec & Hsum & Hrun).
    eexists _, _. split.
    - unfold mbind, M_bind, bind. rewrite Hrun. reflexivity.
    - by exists t, result, summary. }
  unfold mbind at 1, M_bind at 1, bind at 1, mret at 1, M_ret at 1, ret at 1.
  destruct (str_in "edit" _); [|destruct (str_in "search" _);
                                  [|destruct (str_in "read" _)]]; simpl.
  - destruct (Hone EDIT) as (s' & w' & Hrun & t & r & sm & <- & ?).
    exists s', w'. split; [exact Hrun|]. right. by exists EDIT, r, sm.
  - destruct (Hone GREP) as (s' & w' & Hrun & t & r & sm & <- & ?).
    exists s', w'. split; [exact Hrun|]. right. by exists GREP, r, sm.
  - destruct (Hone READ) as (s' & w' & Hrun & t & r & sm & <- & ?).
    exists s', w'. split; [exact Hrun|]. right. by exists READ, r, sm.
  - exists self, w. split; [reflexivity|]. by left.
Qed.

(** ** Trimming and formatting the history *)

Lemma last_n_length {A} n (l : list A) :
  length (last_n n l) = Nat.min n (length l).
Proof. unfold last_n. rewrite length_drop. lia. Qed.

Lemma last_n_all {A} n (l : list A) : (length l ≤ n)%nat → last_n n l = l.
Proof.
  intros Hle. unfold last_n.
  by replace (length l - n)%nat with 0%nat by lia.
Qed.

Lemma last_n_app {A} n (older l : list A) :
  (n ≤ length l)%nat → last_n n (older ++ l) = last_n n l.
Proof.
  intros Hle. unfold last_n. rewrite length_app.
  replace (length older + length l - n)%nat
    with (length older + (length l - n))%nat by lia.
  by rewrite drop_app_add.
Qed.

(** X4: [_summarize_context_with_haiku] returns normally and leaves the
    fixed summary message followed by the last ten messages there were,
    in their order, all of them when there were fewer: at most eleven
    messages.  Once the history holds ten messages or more, running it
    again changes nothing; on a shorter history every run puts one more
    summary message in front. *)
Theorem X4_summarize_keeps_last_ten self w :
  let old := messages (context self) in
  let self' := with_messages (summary_message :: last_n 10 old) self in
  _summarize_context_with_haiku self w = (Ok tt, self', w) ∧
  last_n 10 old `suffix_of` old ∧
  length (messages (context self')) = S (Nat.min 10 (length old)) ∧
  ((10 ≤ length old)%nat →
   _summarize_context_with_haiku self' w = (Ok tt, self', w)) ∧
  ((length old < 10)%nat →
   _summarize_context_with_haiku self' w
   = (Ok tt, with_messages (summary_message :: summary_message :: old) self,
      w)).
Proof.
  intros old self'. split; [reflexivity|]. split; [apply suffix_drop|].
  split; [simpl; by rewrite last_n_length|].
  assert (Hagain : ∀ ms,
    _summarize_context_with_haiku (with_messages ms self) w
    = (Ok tt, with_messages (summary_message :: last_n 10 ms) self, w))
    by reflexivity.
  split; intros Hlen; unfold self'; rewrite Hagain.
  - assert (last_n 10 (summary_message :: last_n 10 old) = last_n 10 old)
      as ->; [|done].
    etrans; [apply (last_n_app 10 [summary_message] (last_n 10 old));
             rewrite last_n_length; lia|].
    apply last_n_all. rewrite last_n_length. lia.
  - assert (last_n 10 (summary_message :: last_n 10 old)
            = summary_message :: old) as ->; [|done].
    rewrite (last_n_all 10 old) by lia.
    apply last_n_all. simpl. lia.
Qed.



(** ** The context of a sub-agent *)

(** X6: [_create_sub_agent_context] builds, for a todo item, the very
    context [_spawn_sub_agent_for_task] gives the agent it creates for
    the item's description; the messages and the todo list of the
    parent have no part in it. *)
Theorem X6_sub_agent_context_agrees env self task ms todos :
  _create_sub_agent_context self task
  = context (new_sub_agent env self (description task)) ∧
  _create_sub_agent_context
    (set_context (set_todo_list todos (set_messages ms (context self))) self)
    task
  = _create_sub_agent_context self task.
Proof. split; reflexivity. Qed.

(** ** Saving and loading together *)

Lemma string_app_assoc a b c : (a +:+ b) +:+ c = a +:+ (b +:+ c).
Proof.
  induction a as [|x a IH]; [done|]. by rewrite !app_String, IH.
Qed.

Lemma rev_app_acc b acc : String.rev_app b acc = String.rev_app b "" +:+ acc.
Proof.
  revert acc. induction b as [|c b IH]; intros acc; [done|]. simpl.
  rewrite (IH (String c acc)), (IH (String c "")).
  by rewrite string_app_assoc.
Qed.

Lemma rev_app_app a b acc :
  String.rev_app (a +:+ b) acc = String.rev_app b (String.rev_app a acc).
Proof.
  revert acc. induction a as [|c a IH]; intros acc; [done|].
  rewrite app_String. simpl. apply IH.
Qed.

(** A text with a suffix appended ends with it. *)
Lemma endswith_app s suffix : endswith (s +:+ suffix) suffix = true.
Proof.
  unfold endswith, String.rev.
  rewrite rev_app_app, (rev_app_acc suffix (String.rev_app s "")).
  apply prefix_spec. by eexists.
Qed.

Lemma decode_items_undescribed i todo_data self w :
  Exists (λ item, j_description item = None) todo_data →
  decode_items i todo_data self w = (Raise KeyError, self, w).
Proof.
  intros Hex. revert i.
  induction Hex as [item rest Hnone|item rest _ IH]; intros i; simpl.
  - by rewrite Hnone.
  - destruct (j_description item); [|done]. unfold_monad. by rewrite IH.
Qed.

(** Loading decodes the snapshot of greatest name, whatever it holds. *)
Lemma load_decodes_greatest self w d f todo_data :
  todos_dir w = Some d →
  d !! f = Some todo_data →
  endswith f ".json" = true →
  (∀ g, is_snapshot w g → (g ≤ f)%string) →
  _load_todo_from_json self w = decode_items 0 todo_data self w.
Proof.
  intros Hd Hf Hjson Hmax.
  unfold _load_todo_from_json. unfold_monad. rewrite Hd.
  assert (Hin : f ∈ filter (λ f, endswith f ".json" = true) (listdir d)).
  { apply (snapshot_in_listing w d f Hd). by exists d. }
  destruct (last_sorted_greatest
              (filter (λ f, endswith f ".json" = true) (listdir d)))
    as (f' & -> & Hf' & Hge).
  { intros Hnil. rewrite Hnil in Hin. by apply elem_of_nil in Hin. }
  assert (f' = f) as ->.
  { apply (anti_symm String.le); [|by apply Hge].
    apply Hmax. by apply (snapshot_in_listing w d f' Hd). }
  by rewrite Hf.
Qed.

Lemma imap_item_at_todo_data_of todos :
  imap item_at (todo_data_of todos) = imap renumbered todos.
Proof.
  unfold todo_data_of. rewrite imap_fmap. by apply imap_ext.
Qed.

(** X7: a save followed by a load gives back the list that was in
    memory, item for item, with the ids replaced by the positions,
    provided no snapshot of the store has a name above the one the
    save writes; a list whose ids are its positions comes back
    unchanged. *)
Theorem X7_save_then_load_round_trip env ps self w :
  let name := "todo_" +:+ now_strftime env w +:+ ".json" in
  (∀ g, is_snapshot w g → (g ≤ name)%string) →
  ∃ w',
    (_update_todo_json env ps;; _load_todo_from_json) self w
    = (Ok (imap renumbered (todo_list (context self))), self, w') ∧
    ((∀ i task, todo_list (context self) !! i = Some task → id task = i) →
     imap renumbered (todo_list (context self)) = todo_list (context self)).
Proof.
  intros name Hmax. eexists. split.
  - unfold mbind, M_bind, bind. rewrite _update_todo_json_eq. fold name.
    rewrite <- imap_item_at_todo_data_of.
    eapply load_greatest_snapshot.
    + reflexivity.
    + apply lookup_insert_eq.
    + unfold name. rewrite <- string_app_assoc. apply endswith_app.
    + intros g (d' & Hd' & [x Hx] & Hjson). simpl in Hd'. simplify_eq.
      destruct (decide (name = g)) as [<-|Hne]; [done|].
      rewrite lookup_insert_ne in Hx by done. apply Hmax.
      destruct (todos_dir w) as [d|] eqn:Hd; simpl in Hx.
      * by exists d.
      * by rewrite lookup_empty in Hx.
    + unfold todo_data_of. apply Forall_fmap, Forall_true. by eexists.
  - intros Hids. apply list_eq. intros i. rewrite list_lookup_imap.
    destruct (todo_list (context self) !! i) as [task|] eqn:Hi; [|done].
    simpl. f_equal. specialize (Hids i task Hi). destruct task; simpl in *.
    by subst.
Qed.

Lemma X7_save_then_load_witness :
  ∃ w',
    (_update_todo_json Demo.quiet ∅;; _load_todo_from_json)
      Demo.busy Demo.yesterday
    = (Ok (imap renumbered (todo_list (context Demo.busy))), Demo.busy, w') ∧
    ((∀ i task, todo_list (context Demo.busy) !! i = Some task → id task = i) →
     imap renumbered (todo_list (context Demo.busy))
     = todo_list (context Demo.busy)).
Proof.
  apply (X7_save_then_load_round_trip Demo.quiet ∅ Demo.busy Demo.yesterday).
  intros g (d & Hd & [x Hx] & Hjson). injection Hd as <-.
  apply lookup_singleton_Some in Hx as [<- _]. by vm_compute.
Defined.

(** X8: two saves stamped with the same second leave one snapshot
    under that name, holding the list of the second save: the
    directory is what the second save alone would have left, and the
    list of the first save is in no file. *)
Theorem X8_same_second_save_overwrites env ps1 ps2 self1 self2 w :
  let w1 := (_update_todo_json env ps1 self1 w).2 in
  let w2 := (_update_todo_json env ps2 self2 w1).2 in
  let name := "todo_" +:+ now_strftime env w +:+ ".json" in
  now_strftime env w1 = now_strftime env w →
  todos_dir w2
  = Some (<[name := todo_data_of (todo_list (context self2))]>
            (default ∅ (todos_dir w))) ∧
  todos_dir w2 = todos_dir (_update_todo_json env ps2 self2 w).2.
Proof.
  intros w1 w2 name Hclock. subst w2 name.
  rewrite !_update_todo_json_eq. simpl. rewrite Hclock.
  by rewrite insert_insert_eq.
Qed.

Lemma X8_same_second_save_witness :
  let w1 := (_update_todo_json Demo.quiet ∅ Demo.busy Demo.yesterday).2 in
  let w2 := (_update_todo_json Demo.quiet ∅ Demo.root w1).2 in
  let name := "todo_" +:+ now_strftime Demo.quiet Demo.yesterday +:+ ".json" in
  todos_dir w2
  = Some (<[name := todo_data_of (todo_list (context Demo.root))]>
            (default ∅ (todos_dir Demo.yesterday))) ∧
  todos_dir w2
  = todos_dir (_update_todo_json Demo.quiet ∅ Demo.root Demo.yesterday).2.
Proof.
  apply (X8_same_second_save_overwrites
           Demo.quiet ∅ ∅ Demo.busy Demo.root Demo.yesterday).
  reflexivity.
Defined.

(** X9: when an object of the snapshot of greatest name has no
    description, loading raises [KeyError], whatever the older
    snapshots hold, and so does the reload of the loop; agent and
    world are as before. *)
Theorem X9_undescribed_item_raises_KeyError self w d f todo_data :
  todos_dir w = Some d →
  d !! f = Some todo_data →
  endswith f ".json" = true →
  (∀ g, is_snapshot w g → (g ≤ f)%string) →
  Exists (λ item, j_description item = None) todo_data →
  _load_todo_from_json self w = (Raise KeyError, self, w) ∧
  sync_todo_list self w = (Raise KeyError, self, w).
Proof.
  intros Hd Hf Hjson Hmax Hex.
  assert (Hload : _load_todo_from_json self w = (Raise KeyError, self, w)).
  { rewrite (load_decodes_greatest self w d f todo_data) by done.
    by apply decode_items_undescribed. }
  split; [done|]. unfold sync_todo_list. unfold_monad. by rewrite Hload.
Qed.

Lemma X9_undescribed_item_witness :
  _load_todo_from_json Demo.root Demo.broken
  = (Raise KeyError, Demo.root, Demo.broken) ∧
  sync_todo_list Demo.root Demo.broken
  = (Raise KeyError, Demo.root, Demo.broken).
Proof.
  apply (X9_undescribed_item_raises_KeyError Demo.root Demo.broken _
           "todo_20250104_000000.json"
           [ {| j_description := Some "write tests";
                j_completed := Some false |};
             {| j_description := None; j_completed := Some true |} ]
           eq_refl).
  - vm_compute; reflexivity.
  - vm_compute; reflexivity.
  - intros g (d & Hd & [x Hx] & Hjson). injection Hd as <-.
    apply lookup_insert_Some in Hx as [[<- _]|[_ Hx]]; [by vm_compute|].
    apply lookup_singleton_Some in Hx as [<- _]. by vm_compute.
  - right. by left.
Defined.

(** X10: a file of the todo directory whose name does not end in
    [.json] has no part in loading: writing or replacing such a file
    leaves the outcome of the load as it was. *)
Theorem X10_load_ignores_other_files self w d f x :
  todos_dir w = Some d →
  endswith f ".json" = false →
  (_load_todo_from_json self (set_todos_dir (Some (<[f := x]> d)) w)).1.1
  = (_load_todo_from_json self w).1.1.
Proof.
  intros Hd Hother. set (w' := set_todos_dir (Some (<[f := x]> d)) w).
  assert (Hsame : ∀ g, is_snapshot w' g ↔ is_snapshot w g).
  { intros g. split.
    - intros (d' & Hd' & Hg & Hjson). simpl in Hd'. simplify_eq.
      exists d. split; [done|]. split; [|done].
      rewrite lookup_insert_ne in Hg; [done|]. intros ->. congruence.
    - intros (d' & Hd' & Hg & Hjson). simplify_eq.
      exists (<[f := x]> d). split; [done|]. split; [|done].
      rewrite lookup_insert_ne; [done|]. intros ->. congruence. }
  destruct (filter (λ f, endswith f ".json" = true) (listdir d))
    as [|f0 l] eqn:Hl.
  - assert (Hnone : ∀ g, ¬ is_snapshot w g).
    { intros g Hg. apply (snapshot_in_listing w d g Hd) in Hg.
      rewrite Hl in Hg. by apply elem_of_nil in Hg. }
    rewrite (load_without_snapshot self w Hnone).
    rewrite (load_without_snapshot self w'); [done|].
    intros g Hg. by apply (Hnone g), Hsame.
  - assert (Hf0 : is_snapshot w f0).
    { apply (snapshot_in_listing w d f0 Hd). rewrite Hl. by left. }
    destruct (greatest_snapshot_exists w f0 Hf0) as (g & Hg & Hmax).
    destruct Hg as (d' & Hd' & [todo_data Hdata] & Hjson). simplify_eq.
    rewrite (load_decodes_greatest self w d g todo_data) by done.
    rewrite (load_decodes_greatest self w' (<[f := x]> d) g todo_data);
      try done.
    + destruct (decode_items_pure 0 todo_data) as [r Hr]. by rewrite !Hr.
    + rewrite lookup_insert_ne; [done|]. intros ->. congruence.
    + intros g' Hg'. by apply Hmax, Hsame.
Qed.

Lemma X10_load_ignores_witness :
  (_load_todo_from_json Demo.root
     (set_todos_dir
        (Some (<["notes.md" := []]>
                 (default ∅ (todos_dir Demo.two_snapshots))))
        Demo.two_snapshots)).1.1
  = (_load_todo_from_json Demo.root Demo.two_snapshots).1.1.
Proof.
  apply (X10_load_ignores_other_files Demo.root Demo.two_snapshots _
           "notes.md" [] eq_refl).
  vm_compute; reflexivity.
Defined.

(** ** The other tools in the loop *)

(** X11: in the loop, the dispatch of a tool call that is neither the
    string [Task] nor the string [TodoWrite] never records anything.
    When the tool is a member of [ToolType], permission is requested
    on standard output and the tool is executed, and the message for
    its result is then built without a content, which raises
    [TypeError]; when the tool is a string, the permission request
    itself raises [AttributeError].  The agent is unchanged either
    way. *)
Theorem X11_other_tools_raise env sub tool_call self w :
  tool_eq_str (tool tool_call) "Task" = false →
  tool_eq_str (tool tool_call) "TodoWrite" = false →
  dispatch env sub tool_call self w
  = match tool tool_call with
    | ToolEnum t =>
        (Raise TypeError, self,
         add_stdout ("Permission requested for: " +:+ ToolType_value t) w)
    | ToolStr _ => (Raise AttributeError, self, w)
    end.
Proof.
  intros HTask HTodo. unfold dispatch. rewrite HTask, HTodo.
  destruct tool_call as [[s|t] ps]; [reflexivity|].
  destruct (_execute_tool_enum t ps self w) as (result & summary & Hrun & _).
  unfold _get_user_permission, permitted_tool. unfold_monad. simpl.
  by destruct t.
Qed.

Lemma X11_other_tools_witness :
  dispatch Demo.quiet (main_loop Demo.quiet 0) Demo.edit_call
           Demo.root Demo.world0
  = match tool Demo.edit_call with
    | ToolEnum t =>
        (Raise TypeError, Demo.root,
         add_stdout ("Permission requested for: " +:+ ToolType_value t)
                    Demo.world0)
    | ToolStr _ => (Raise AttributeError, Demo.root, Demo.world0)
    end.
Proof.
  apply (X11_other_tools_raise Demo.quiet (main_loop Demo.quiet 0)
           Demo.edit_call Demo.root Demo.world0); reflexivity.
Defined.

(** ** Before the loop *)

(** X12: when the quota call is answered and the topic call is not,
    [main_loop] raises [AttributeError] before anything is added to
    the context: the agent differs from the initial one in
    [current_model] only, and the world holds the two calls. *)
Theorem X12_unanswered_topic_call_raises env fuel user_input self w quota :
  let self1 := set_current_model HAIKU self in
  let w1 := add_call (CallApi HAIKU "quota") w in
  let prompt :=
    "Is this a new topic different from previous conversation: "
    +:+ user_input in
  _call_api env w self1 HAIKU "quota" = Some quota →
  _call_api env w1 self1 HAIKU prompt = None →
  main_loop env (S fuel) user_input self w
  = (Raise AttributeError, self1, add_call (CallApi HAIKU prompt) w1) ∧
  context self1 = context self.
Proof.
  intros self1 w1 prompt Hquota Htopic. split; [|reflexivity]. simpl.
  unfold _check_quota, _check_new_topic, call_api. unfold_monad. simpl.
  fold self1. rewrite Hquota. simpl.
  change (set_current_model HAIKU self1) with self1.
  fold w1 prompt. by rewrite Htopic.
Qed.

Lemma X12_unanswered_topic_call_witness :
  let self1 := set_current_model HAIKU Demo.root in
  let w1 := add_call (CallApi HAIKU "quota") Demo.world0 in
  let prompt :=
    "Is this a new topic different from previous conversation: "
    +:+ "fix bug" in
  main_loop Demo.mute 1 "fix bug" Demo.root Demo.world0
  = (Raise AttributeError, self1, add_call (CallApi HAIKU prompt) w1) ∧
  context self1 = context Demo.root.
Proof.
  apply (X12_unanswered_topic_call_raises Demo.mute 0 "fix bug" Demo.root
           Demo.world0 "ok"); reflexivity.
Defined.

Lemma main_loop_before_loop env fuel user_input self w :
  main_loop env (S fuel) user_input self w
  = (entered ← before_loop env user_input;
     if (entered : bool) then
       processing_loop env (main_loop env fuel) fuel;;
       _summarize_for_next_session env
     else mret tt) self w.
Proof.
  simpl. unfold before_loop, _check_quota, _check_new_topic, call_api.
  unfold_monad. simpl.
  destruct (_call_api env w _ HAIKU "quota"); simpl; [|reflexivity].
  destruct (_call_api env _ _ HAIKU _); simpl; [|reflexivity].
  destruct (str_in "new_topic" _); reflexivity.
Qed.

(** X13: the loop of a sub-agent is entered, when its quota and topic
    calls are answered, from a history of four messages: the start
    reminder, the task description, the end reminder and the task
    description once more, since the context is created holding the
    task and [main_loop] appends its input again. *)
Theorem X13_sub_agent_is_told_its_task_twice
    env self task_description quota topic w :
  let child := new_sub_agent env self task_description in
  let child1 := set_current_model HAIKU child in
  let w1 := add_call (CallApi HAIKU "quota") w in
  let prompt :=
    "Is this a new topic different from previous conversation: "
    +:+ task_description in
  _call_api env w child1 HAIKU "quota" = Some quota →
  _call_api env w1 child1 HAIKU prompt = Some topic →
  ∃ child2 w2,
    before_loop env task_description child w = (Ok true, child2, w2) ∧
    messages (context child2)
    = [ system_message (Some (_build_system_reminder_start env child1));
        user_message task_description;
        system_message (Some (_build_system_reminder_end env child1));
        user_message task_description ].
Proof.
  intros child child1 w1 prompt Hquota Htopic.
  unfold before_loop, _check_quota, _check_new_topic, call_api.
  unfold_monad. simpl.
  fold child. fold child1. rewrite Hquota. simpl.
  change (set_current_model HAIKU child1) with child1.
  fold w1 prompt. rewrite Htopic.
  destruct (str_in "new_topic" (lower topic)); simpl;
    eexists _, _; (split; [reflexivity|]); reflexivity.
Qed.

Lemma X13_sub_agent_witness :
  let child := new_sub_agent Demo.quiet Demo.root "find all TODOs" in
  let child1 := set_current_model HAIKU child in
  ∃ child2 w2,
    before_loop Demo.quiet "find all TODOs" child Demo.world0
    = (Ok true, child2, w2) ∧
    messages (context child2)
    = [ system_message (Some (_build_system_reminder_start Demo.quiet child1));
        user_message "find all TODOs";
        system_message (Some (_build_system_reminder_end Demo.quiet child1));
        user_message "find all TODOs" ].
Proof.
  apply (X13_sub_agent_is_told_its_task_twice
           Demo.quiet Demo.root "find all TODOs" "ok" "ok" Demo.world0);
    reflexivity.
Defined.

(** X14: right after a compaction, the check for compaction looks at
    the one message that is left: it asks for another compaction
    exactly when the estimate of the compressed text alone is above
    100000, so a model that does not compress below the threshold is
    asked again at every iteration. *)
Theorem X14_compaction_then_check env self w :
  let text := _call_api env w (set_current_model SONNET self) SONNET
                compact_prompt in
  ∃ self' w',
    _compact_context env self w = (Ok tt, self', w') ∧
    _context_needs_compaction env self' w'
    = (Ok (100000 <? _estimate_tokens env text)%Z, self', w').
Proof.
  intros text. eexists _, _. split; [apply _compact_context_eq|].
  unfold _context_needs_compaction. unfold_monad. simpl.
  fold text. by rewrite Z.add_0_r.
Qed.

(** ** What a whole run keeps *)

Lemma processing_loop_never_returns env sub fuel :
  never_returns (processing_loop env sub fuel).
Proof.
  intros self w a. destruct fuel as [|fuel]; [done|].
  rewrite processing_loop_stops_at_exit_check.
  by destruct (iteration env sub self w) as [[[r|e|] self'] w'].
Qed.

Section Frame.

Context (Ra : relation ClaudeCodeAgent) (Rw : relation World).
Context `{!PreOrder Ra, !PreOrder Rw}.

Hypothesis Ra_model : ∀ m a, Ra a (set_current_model m a).
Hypothesis Ra_messages :
  ∀ ms a, Ra a (set_context (set_messages ms (context a)) a).
Hypothesis Ra_todo_list :
  ∀ ts a, Ra a (set_context (set_todo_list ts (context a)) a).
Hypothesis Rw_call :
  ∀ c w, (∀ s, c ≠ CallSaveSummary s) → Rw w (add_call c w).
Hypothesis Rw_stdout : ∀ line w, Rw w (add_stdout line w).
Hypothesis Rw_write :
  ∀ f x w, Rw w (set_todos_dir (Some (<[f := x]> (default ∅ (todos_dir w)))) w).

Local Abbreviation kept := (keeps Ra Rw).

Lemma keeps_ret {A} (a : A) : kept (mret a).
Proof. by intros self w. Qed.

Lemma keeps_raise {A} e : kept (raise (A := A) e).
Proof. by intros self w. Qed.

Lemma keeps_out_of_fuel {A} : kept (out_of_fuel (A := A)).
Proof. by intros self w. Qed.

Lemma keeps_bind {A B} (m : M A) (k : A → M B) :
  kept m → (∀ a, kept (k a)) → kept (m ≫= k).
Proof.
  intros Hm Hk self w. specialize (Hm self w).
  unfold mbind, M_bind, bind.
  destruct (m self w) as [[[a|e|] self1] w1]; simpl in *; try done.
  destruct Hm as [Ha Hw]. destruct (Hk a self1 w1) as [Ha' Hw'].
  split; [by trans self1|by trans w1].
Qed.

Lemma keeps_bind_never {A B} (m : M A) (k : A → M B) :
  kept m → never_returns m → kept (m ≫= k).
Proof.
  intros Hm Hnever self w. specialize (Hm self w).
  specialize (Hnever self w). unfold mbind, M_bind, bind.
  destruct (m self w) as [[[a|e|] self1] w1]; simpl in *; try done.
  by destruct (Hnever a).
Qed.

Lemma keeps_get_self : kept get_self.
Proof. by intros self w. Qed.

Lemma keeps_get_world : kept get_world.
Proof. by intros self w. Qed.

Lemma keeps_modify_self f : (∀ a, Ra a (f a)) → kept (modify_self f).
Proof. intros Hf self w. by split. Qed.

Lemma keeps_modify_world f : (∀ w, Rw w (f w)) → kept (modify_world f).
Proof. intros Hf self w. by split. Qed.

Lemma keeps_call_api env m prompt : kept (call_api env m prompt).
Proof. intros self w. split; [done|]. by apply Rw_call. Qed.

Lemma keeps_get_model_response env : kept (get_model_response env).
Proof. intros self w. split; [done|]. by apply Rw_call. Qed.

Lemma keeps_Message_init r c tc tr : kept (Message_init r c tc tr).
Proof. intros self w. by destruct r, c. Qed.

Lemma keeps_on_agent {A} other (m : M A) : kept m → kept (on_agent other m).
Proof.
  intros Hm self w. destruct (Hm other w) as [_ Hw]. unfold on_agent.
  by destruct (m other w) as [[[a|e|] other'] w'].
Qed.

Lemma keeps_decode_items i todo_data : kept (decode_items i todo_data).
Proof.
  destruct (decode_items_pure i todo_data) as [r Hr].
  intros self w. by rewrite Hr.
Qed.

Lemma keeps_tool_value t : kept (tool_value t).
Proof. destruct t; [apply keeps_raise|apply keeps_ret]. Qed.

Lemma keeps_execute_tool tool_call : kept (_execute_tool tool_call).
Proof.
  intros self w. destruct tool_call as [[s|t] ps]; [done|].
  destruct (_execute_tool_enum t ps self w) as (r & ? & -> & _). done.
Qed.

Create HintDb keeps discriminated.

Hint Resolve keeps_ret keeps_raise keeps_out_of_fuel keeps_get_self
  keeps_get_world keeps_call_api keeps_get_model_response
  keeps_Message_init keeps_decode_items keeps_tool_value
  keeps_execute_tool : keeps.

Ltac solve_kept :=
  repeat first
    [ progress (unfold print, messages_append, messages_insert0,
                update_terminal_title, save_session_summary)
    | solve [auto with keeps]
    | apply keeps_modify_self; intros ?; solve [auto]
    | apply keeps_modify_world; intros ?; solve [auto]
    | apply keeps_bind; [|intros ?]
    | match goal with
      | |- context [if ?b then _ else _] => destruct b
      | |- context [match ?x with _ => _ end] => destruct x
      end ].

Lemma keeps_check_quota env : kept (_check_quota env).
Proof. unfold _check_quota. solve_kept. Qed.

Lemma keeps_check_new_topic env user_input :
  kept (_check_new_topic env user_input).
Proof. unfold _check_new_topic. solve_kept. Qed.

Lemma keeps_inject_system_reminders env : kept (_inject_system_reminders env).
Proof. unfold _inject_system_reminders. solve_kept. Qed.

Lemma keeps_before_loop env user_input : kept (before_loop env user_input).
Proof.
  unfold before_loop.
  pose proof (keeps_check_quota env). pose proof (keeps_check_new_topic env).
  pose proof (keeps_inject_system_reminders env).
  solve_kept; apply keeps_modify_world; intros; apply Rw_call; done.
Qed.

Lemma keeps_context_needs_compaction env :
  kept (_context_needs_compaction env).
Proof. unfold _context_needs_compaction. solve_kept. Qed.

Lemma keeps_compact_context env : kept (_compact_context env).
Proof. unfold _compact_context. solve_kept. Qed.

Lemma keeps_load_todo_from_json : kept _load_todo_from_json.
Proof. unfold _load_todo_from_json. solve_kept. Qed.

Lemma keeps_sync_todo_list : kept sync_todo_list.
Proof.
  unfold sync_todo_list. pose proof keeps_load_todo_from_json. solve_kept.
Qed.

Lemma keeps_update_todo_json env ps : kept (_update_todo_json env ps).
Proof.
  intros self w. rewrite _update_todo_json_eq. split; [done|apply Rw_write].
Qed.

Lemma keeps_get_user_permission tool_call :
  kept (_get_user_permission tool_call).
Proof. unfold _get_user_permission. solve_kept. Qed.

Lemma keeps_permitted_tool permitted tool_call :
  kept (permitted_tool permitted tool_call).
Proof. unfold permitted_tool. solve_kept. Qed.

Section Sub.

Variable env : Env.
Variable sub : string → M unit.
Hypothesis keeps_sub : ∀ user_input, kept (sub user_input).

Lemma keeps_spawn task_params :
  kept (spawn_sub_agent_for_task env sub task_params).
Proof.
  unfold spawn_sub_agent_for_task.
  apply keeps_bind; [apply keeps_get_self|intros self].
  apply keeps_bind; [by apply keeps_on_agent|intros [[] child]].
  apply keeps_ret.
Qed.

Lemma keeps_dispatch tool_call : kept (dispatch env sub tool_call).
Proof.
  unfold dispatch.
  pose proof keeps_spawn. pose proof (keeps_update_todo_json env).
  pose proof keeps_get_user_permission. pose proof keeps_permitted_tool.
  solve_kept.
Qed.

Lemma keeps_for_each l : kept (for_each env sub l).
Proof.
  induction l as [|tool_call rest IH]; simpl; [apply keeps_ret|].
  apply keeps_bind; [apply keeps_dispatch|by intros _].
Qed.

Lemma keeps_iteration : kept (iteration env sub).
Proof.
  unfold iteration.
  pose proof (keeps_context_needs_compaction env).
  pose proof (keeps_compact_context env).
  pose proof keeps_sync_todo_list. pose proof keeps_for_each.
  solve_kept.
Qed.

Lemma keeps_processing_loop fuel : kept (processing_loop env sub fuel).
Proof.
  induction fuel as [|fuel IH]; simpl; [apply keeps_out_of_fuel|].
  apply keeps_bind; [apply keeps_iteration|intros response].
  apply keeps_bind; [apply keeps_raise|intros stop]. by destruct stop; solve_kept.
Qed.

End Sub.

(** Every run of [main_loop], the runs of its sub-agents included and
    however it ends, keeps the two relations. *)
Lemma keeps_main_loop env fuel user_input :
  kept (main_loop env fuel user_input).
Proof.
  revert user_input. induction fuel as [|fuel IH]; intros user_input.
  - apply keeps_out_of_fuel.
  - intros self w. rewrite main_loop_before_loop. revert self w.
    change (kept (entered ← before_loop env user_input;
                   if (entered : bool) then
                     processing_loop env (main_loop env fuel) fuel;;
                     _summarize_for_next_session env
                   else mret tt)).
    apply keeps_bind; [apply keeps_before_loop|intros [|]]; [|apply keeps_ret].
    apply keeps_bind_never.
    + by apply keeps_processing_loop.
    + apply processing_loop_never_returns.
Qed.

End Frame.

Global Instance always_preorder {A} : PreOrder (λ _ _ : A, True).
Proof. by split. Qed.

Global Instance files_kept_preorder : PreOrder (λ w w', files w ⊆ files w').
Proof. split; [by intros w|]. intros w1 w2 w3 ??. by trans (files w2). Qed.

Global Instance no_new_summary_preorder :
  PreOrder (λ w w', ∀ s, CallSaveSummary s ∈ calls w' →
                         CallSaveSummary s ∈ calls w).
Proof. split; [by intros w|]. intros w1 w2 w3 H12 H23 s Hs. auto. Qed.

Global Instance same_identity_preorder : PreOrder same_identity.
Proof.
  split; [by intros a|].
  intros a1 a2 a3 H12 H23. unfold same_identity in *.
  destruct_and!. repeat split; congruence.
Qed.

(** X15: a run of [main_loop], the runs of its sub-agents included and
    however it ends, removes no file from the todo directory: every
    name that was there is still there, and so every snapshot of the
    store still is one. *)
Theorem X15_run_removes_no_file env fuel user_input self w :
  let w' := (main_loop env fuel user_input self w).2 in
  files w ⊆ files w' ∧ ∀ f, is_snapshot w f → is_snapshot w' f.
Proof.
  intros w'.
  assert (Hfiles : files w ⊆ files w').
  { apply (keeps_main_loop (λ _ _, True) (λ w w', files w ⊆ files w'));
      try done.
    intros f x w0. unfold files. simpl. rewrite dom_insert. set_solver. }
  split; [done|]. intros f (d & Hd & Hf & Hjson).
  assert (Hin : f ∈ files w').
  { apply Hfiles. unfold files. rewrite Hd. by apply elem_of_dom. }
  unfold files in Hin. apply elem_of_dom in Hin.
  destruct (todos_dir w') as [d'|] eqn:Hd'; simpl in Hin.
  - by exists d'.
  - rewrite lookup_empty in Hin. by destruct Hin.
Qed.

(** X17: a run of [main_loop], however it ends, leaves the agent its
    key, its project path, its depth and maximum depth, its todo path,
    its IDE flag and the project fields of its context: only the
    messages, the todo list and the current model can differ. *)
Theorem X17_run_keeps_the_identity env fuel user_input self w :
  same_identity self (main_loop env fuel user_input self w).1.2.
Proof.
  by apply (keeps_main_loop same_identity (λ _ _, True)).
Qed.

Lemma before_loop_not_entered env user_input self w self' w' :
  before_loop env user_input self w = (Ok false, self', w') →
  _call_api env w (set_current_model HAIKU self) HAIKU "quota" = None.
Proof.
  unfold before_loop, _check_quota, _check_new_topic, call_api.
  unfold_monad. simpl.
  destruct (_call_api env w _ HAIKU "quota"); simpl; [|done].
  destruct (_call_api env _ _ HAIKU _); simpl; [|done].
  by destruct (str_in "new_topic" _).
Qed.

Lemma main_loop_without_quota env fuel user_input self w :
  _call_api env w (set_current_model HAIKU self) HAIKU "quota" = None →
  (main_loop env (S fuel) user_input self w).1.1 = Ok tt.
Proof.
  intros Hquota. simpl. unfold _check_quota, call_api. unfold_monad.
  by rewrite Hquota.
Qed.

(** X18: with fuel for at least one step, [main_loop] returns normally
    exactly when the quota call is not answered: a run that enters the
    loop ends in an exception (or runs on), so the summary for the next
    session is never saved: no summary call is made that was not in
    the world before. *)
Theorem X18_run_returns_only_without_quota env fuel user_input self w :
  let run := main_loop env (S fuel) user_input self w in
  (run.1.1 = Ok tt ↔
   _call_api env w (set_current_model HAIKU self) HAIKU "quota" = None) ∧
  ∀ s, CallSaveSummary s ∈ calls run.2 → CallSaveSummary s ∈ calls w.
Proof.
  intros run. split; [split|].
  - subst run. rewrite main_loop_before_loop. unfold mbind, M_bind, bind.
    destruct (before_loop env user_input self w) as [[[[|]|e|] self1] w1]
      eqn:Hbefore; [|by eauto using before_loop_not_entered|done..].
    intros Hret. exfalso.
    pose proof (processing_loop_never_returns
                  env (main_loop env fuel) fuel self1 w1) as Hnever.
    destruct (processing_loop env (main_loop env fuel) fuel self1 w1)
      as [[[a|e|] self2] w2]; simpl in *; try done.
    by destruct (Hnever a).
  - apply main_loop_without_quota.
  - apply (keeps_main_loop
             (λ _ _, True)
             (λ w w', ∀ s, CallSaveSummary s ∈ calls w' →
                           CallSaveSummary s ∈ calls w)); try done.
    intros c w0 Hc s Hs. simpl in Hs. apply elem_of_app in Hs as [?|Hs]; [done|].
    apply list_elem_of_singleton in Hs. by destruct (Hc s).
Qed.

(** ** Two more edges of the loop *)

(** X19: a [Task] call reads the key [task] of its params and nothing
    else: without the key it is no error, the sub-agent is created for
    the empty description, and the outcome is that of a call whose
    params hold just the description. *)
Theorem X19_task_call_reads_only_the_task_key env sub ps self w :
  dispatch env sub {| tool := ToolStr "Task"; params := ps |} self w
  = dispatch env sub
      {| tool := ToolStr "Task";
         params := {[ "task" := default "" (ps !! "task") ]} |} self w ∧
  dispatch env sub {| tool := ToolStr "Task"; params := ∅ |} self w
  = dispatch env sub
      {| tool := ToolStr "Task"; params := {[ "task" := "" ]} |} self w.
Proof.
  split; rewrite !dispatch_Task; cbv zeta;
    by rewrite ?lookup_singleton_eq, ?lookup_empty.
Qed.

(** X20: the topic check decides one thing only, whether the terminal
    title is updated: when both calls before the loop are answered, the
    loop is entered from the same agent whatever the answer to the
    topic call says, and the calls made are the quota call, the topic
    call and, exactly when the answer holds [new_topic] in some letter
    case, the title update; nothing is printed. *)
Theorem X20_topic_only_decides_the_title
    env user_input self w quota topic :
  let self1 := set_current_model HAIKU self in
  let w1 := add_call (CallApi HAIKU "quota") w in
  let prompt :=
    "Is this a new topic different from previous conversation: "
    +:+ user_input in
  _call_api env w self1 HAIKU "quota" = Some quota →
  _call_api env w1 self1 HAIKU prompt = Some topic →
  ∃ w2,
    before_loop env user_input self w
    = (Ok true,
       set_current_model SONNET
         (with_messages
            (system_message (Some (_build_system_reminder_start env self1))
               :: messages (context self)
               ++ [system_message (Some (_build_system_reminder_end env self1));
                   user_message user_input]) self),
       w2) ∧
    calls w2
    = calls w ++ [CallApi HAIKU "quota"; CallApi HAIKU prompt]
        ++ (if str_in "new_topic" (lower topic)
            then [CallUpdateTitle user_input] else []) ∧
    stdout w2 = stdout w ∧ todos_dir w2 = todos_dir w.
Proof.
  intros self1 w1 prompt Hquota Htopic.
  unfold before_loop, _check_quota, _check_new_topic, call_api.
  unfold_monad. simpl.
  fold self1. rewrite Hquota. simpl.
  change (set_current_model HAIKU self1) with self1.
  fold w1 prompt. rewrite Htopic.
  destruct (str_in "new_topic" (lower topic)); simpl;
    eexists; (split; [unfold with_messages; simpl;
                      by rewrite <- app_assoc|]);
    simpl; rewrite <- ?app_assoc; done.
Qed.

Lemma X20_topic_witness :
  let self1 := set_current_model HAIKU Demo.root in
  let prompt :=
    "Is this a new topic different from previous conversation: "
    +:+ "fix bug" in
  ∃ w2,
    before_loop Demo.quiet "fix bug" Demo.root Demo.world0
    = (Ok true,
       set_current_model SONNET
         (with_messages
            (system_message
               (Some (_build_system_reminder_start Demo.quiet self1))
               :: messages (context Demo.root)
               ++ [system_message
                     (Some (_build_system_reminder_end Demo.quiet self1));
                   user_message "fix bug"]) Demo.root),
       w2) ∧
    calls w2
    = calls Demo.world0 ++ [CallApi HAIKU "quota"; CallApi HAIKU prompt]
        ++ (if str_in "new_topic" (lower "ok")
            then [CallUpdateTitle "fix bug"] else []) ∧
    stdout w2 = stdout Demo.world0 ∧ todos_dir w2 = todos_dir Demo.world0.
Proof.
  apply (X20_topic_only_decides_the_title
           Demo.quiet "fix bug" Demo.root Demo.world0 "ok" "ok");
    reflexivity.
Defined.

(** ** The result of a sub-agent that does its work *)

Lemma main_loop_with_quota_never_returns env fuel user_input self w quota :
  _call_api env w (set_current_model HAIKU self) HAIKU "quota" = Some quota →
  (main_loop env fuel user_input self w).1.1 ≠ Ok tt.
Proof.
  intros Hquota. destruct fuel as [|fuel]; [done|].
  rewrite main_loop_before_loop. unfold mbind, M_bind, bind.
  destruct (before_loop env user_input self w) as [[[[|]|e|] self1] w1]
    eqn:Hbefore; try done.
  - pose proof (processing_loop_never_returns
                  env (main_loop env fuel) fuel self1 w1) as Hnever.
    destruct (processing_loop env (main_loop env fuel) fuel self1 w1)
      as [[[a|e|] self2] w2]; simpl in *; try done.
    by destruct (Hnever a).
  - apply before_loop_not_entered in Hbefore. congruence.
Qed.

(** Whenever the quota call of the sub-agent is answered, the dispatch
    of the [Task] call does not return normally and the parent is the
    agent it was: no message is folded into its context. *)
Lemma task_dispatch_of_working_child env fuel ps self w quota :
  let task := default "" (ps !! "task") in
  let child := new_sub_agent env self task in
  let run := dispatch env (main_loop env fuel)
                      {| tool := ToolStr "Task"; params := ps |} self w in
  _call_api env w (set_current_model HAIKU child) HAIKU "quota" = Some quota →
  run.1.1 ≠ Ok tt ∧ run.1.2 = self.
Proof.
  intros task child run Hquota. subst run. rewrite dispatch_Task. cbv zeta.
  fold task. fold child.
  pose proof (main_loop_with_quota_never_returns
                env fuel task child w quota Hquota) as Hnever.
  destruct (main_loop env fuel task child w) as [[[[]|e|] child'] w'];
    simpl in *; by try split.
Qed.

(** C3, at the failing input: the root agent dispatches a [Task] call
    and the quota and topic calls of the sub-agent are answered.  The
    sub-agent is built as the claim says, from a context holding the
    task description as its one user message, an empty todo list and
    the four project fields of the root.  It runs one iteration, asking
    the model, and its exit check then raises [TypeError]; the dispatch
    ends with that exception and the root is the agent it was, with no
    message folded into its context. *)
Theorem C3_working_child_result_is_not_folded :
  let child := new_sub_agent Demo.quiet Demo.root "find all TODOs" in
  context child
  = {| messages := [user_message "find all TODOs"];
       todo_list := [];
       current_directory := current_directory (context Demo.root);
       claude_md_content := claude_md_content (context Demo.root);
       recent_commits := recent_commits (context Demo.root);
       platform_info := platform_info (context Demo.root) |} ∧
  ∃ w',
    dispatch Demo.quiet (main_loop Demo.quiet 2) Demo.task_call
             Demo.root Demo.world0
    = (Raise TypeError, Demo.root, w') ∧
    messages (context Demo.root) = [] ∧
    calls w'
    = [ CallApi HAIKU "quota";
        CallApi HAIKU
          "Is this a new topic different from previous conversation: find all TODOs";
        CallModelResponse ].
Proof.
  intros child. split; [reflexivity|].
  eexists. split; [vm_compute; reflexivity|]. split; reflexivity.
Qed.
